(** * Bloggy: selective note publishing (bloggy.py)

    A shallow embedding of the parsing, classification, extraction,
    aggregation and link-naming logic of [NotesPublisher], and the
    properties its specification states about them.

    Text model.  A Python [str] is a sequence of code points; here it is a
    [string] whose characters are the code points U+0000..U+00FF (one
    [ascii] each).  On that range the models of [str.isspace], the line
    boundaries of [str.splitlines], [str.lower] and the ordering of [str]
    are the ones CPython implements.

    File model.  A file is its name together with what reading it gives:
    [Some text], or [None] when [open]/[read] raises.  The directory walk
    ([rglob]) is the list of files in the order it yields them.  *)

From Stdlib Require Import Ascii NArith.
From stdpp Require Import base list strings gmap sorting pretty.

(** ** Python string built-ins *)

Module PyStr.

(** [str.isspace] on one character (CPython's _PyUnicode_IsWhitespace). *)
Definition isspace (c : ascii) : bool :=
  let n := N_of_ascii c in
  (((9 <=? n) && (n <=? 13)) || ((28 <=? n) && (n <=? 32))
   || (n =? 133) || (n =? 160))%N.

(** Line boundaries of [str.splitlines] (CPython's _PyUnicode_IsLinebreak). *)
Definition islinebreak (c : ascii) : bool :=
  let n := N_of_ascii c in
  (((10 <=? n) && (n <=? 13)) || ((28 <=? n) && (n <=? 30)) || (n =? 133))%N.

(** [str.lower] on one character. *)
Definition lower_char (c : ascii) : ascii :=
  let n := N_of_ascii c in
  if (((65 <=? n) && (n <=? 90))
      || ((192 <=? n) && (n <=? 214)) || ((216 <=? n) && (n <=? 222)))%N
  then ascii_of_N (n + 32)%N else c.

Fixpoint lower (s : string) : string :=
  match s with
  | "" => ""
  | String c s' => String (lower_char c) (lower s')
  end.

(** [s.startswith(prefix)]. *)
Fixpoint startswith (prefix s : string) : bool :=
  match prefix, s with
  | "", _ => true
  | String p prefix', String c s' => Ascii.eqb p c && startswith prefix' s'
  | String _ _, "" => false
  end.

(** [sub in s]. *)
Fixpoint contains (sub s : string) : bool :=
  startswith sub s ||
  match s with
  | "" => false
  | String _ s' => contains sub s'
  end.

(** [s[n:]]. *)
Fixpoint drop (n : nat) (s : string) : string :=
  match n, s with
  | O, _ => s
  | S _, "" => ""
  | S n', String _ s' => drop n' s'
  end.

(** [s.lstrip()], [s.rstrip()] and [s.strip()]. *)
Fixpoint lstrip (s : string) : string :=
  match s with
  | "" => ""
  | String c s' => if isspace c then lstrip s' else s
  end.

Fixpoint rstrip (s : string) : string :=
  match s with
  | "" => ""
  | String c s' =>
      match rstrip s' with
      | "" => if isspace c then "" else String c ""
      | r => String c r
      end
  end.

Definition strip (s : string) : string := lstrip (rstrip s).

(** [s.splitlines()]: a carriage return followed by a line feed is one
    boundary, and a final boundary opens no empty last line. *)
Fixpoint splitlines (s : string) : list string :=
  match s with
  | "" => []
  | String c s' =>
      if islinebreak c then
        match s' with
        | String d s'' =>
            if Ascii.eqb c "013" && Ascii.eqb d "010"
            then "" :: splitlines s''
            else "" :: splitlines s'
        | "" => [""]
        end
      else
        match splitlines s' with
        | [] => [String c ""]
        | l :: ls => String c l :: ls
        end
  end.

(** The text before the first [stop] and the text after it; [None] when
    [stop] does not occur. *)
Fixpoint span_until (stop : ascii) (s : string) : option (string * string) :=
  match s with
  | "" => None
  | String c s' =>
      if Ascii.eqb c stop then Some ("", s')
      else match span_until stop s' with
           | Some (before, after) => Some (String c before, after)
           | None => None
           end
  end.

(** [s.split(sep, 1)] for a one-character separator. *)
Definition split1 (sep : ascii) (s : string) : list string :=
  match span_until sep s with
  | Some (before, after) => [before; after]
  | None => [s]
  end.

(** [s.replace(old, new)]: occurrences of [old] are replaced from the left,
    without overlap.  [skip] counts the characters of a replaced occurrence
    that are still to be passed over.  An empty [old] matches before every
    character and at the end. *)
Fixpoint replace_go (old new : string) (skip : nat) (s : string) : string :=
  match s with
  | "" => ""
  | String c s' =>
      match skip with
      | S k => replace_go old new k s'
      | O =>
          if startswith old s
          then new +:+ replace_go old new (String.length old - 1) s'
          else String c (replace_go old new O s')
      end
  end.

Fixpoint intersperse (new s : string) : string :=
  match s with
  | "" => new
  | String c s' => new +:+ String c (intersperse new s')
  end.

Definition replace (old new s : string) : string :=
  match old with
  | "" => intersperse new s
  | _ => replace_go old new O s
  end.

End PyStr.

(** ** The link pattern

    [LINK_REGEX] reads: an opening square bracket, a greedy run of any
    characters but a closing square bracket, a closing square bracket, an
    opening parenthesis, the captured greedy run of any characters but a
    closing parenthesis, and a closing parenthesis.  Each run is followed by
    the one character it excludes, so the match never backtracks. *)

Module Re.

(** The pattern matched at the start of [s]: the captured group and the
    text after the match. *)
Definition match_link (s : string) : option (string * string) :=
  match s with
  | String c s1 =>
      if Ascii.eqb c "[" then
        match PyStr.span_until "]" s1 with
        | Some (_, String d s2) =>
            if Ascii.eqb d "(" then PyStr.span_until ")" s2 else None
        | _ => None
        end
      else None
  | "" => None
  end.

(** [re.findall(LINK_REGEX, s)]: the pattern is tried at each position from
    the left; after a match the scan resumes where the match ended.  [skip]
    counts the characters of the last match still to be passed over. *)
Fixpoint findall_go (skip : nat) (s : string) : list string :=
  match s with
  | "" => []
  | String _ s' =>
      match skip with
      | S k => findall_go k s'
      | O =>
          match match_link s with
          | Some (target, rest) =>
              target :: findall_go (String.length s' - String.length rest) s'
          | None => findall_go O s'
          end
      end
  end.

Definition findall (s : string) : list string := findall_go O s.

End Re.

(** ** NotesPublisher *)

Module NotesPublisher.
Import PyStr.

Record md_file := MdFile { name : string; read : option string }.

Definition is_separator (line : string) : bool := String.eqb (strip line) "---".

(** The first loop of [parse_frontmatter]: the index of the first line after
    line 0 whose stripped text is the separator. *)
Fixpoint find_end (i : nat) (lines : list string) : option nat :=
  match lines with
  | [] => None
  | line :: lines' => if is_separator line then Some i else find_end (S i) lines'
  end.

(** [lines[a:b]]. *)
Definition slice {A} (a b : nat) (l : list A) : list A := List.skipn a (List.firstn b l).

(** The body of the second loop of [parse_frontmatter]. *)
Definition store_line (frontmatter : gmap string string) (line : string)
  : gmap string string :=
  if contains ":" line then
    match split1 ":" line with
    | [key; value] => <[strip key := strip value]> frontmatter
    | _ => frontmatter
    end
  else frontmatter.

Definition parse_frontmatter (content : string) : gmap string string :=
  if negb (startswith "---" content) then ∅
  else
    let lines := splitlines content in
    match find_end 1 (List.skipn 1 lines) with
    | None => ∅
    | Some end_idx => fold_left store_line (slice 1 end_idx lines) ∅
    end.

(** [frontmatter.get(key, "")]. *)
Definition get_or_empty (frontmatter : gmap string string) (key : string) : string :=
  default "" (frontmatter !! key).

Definition is_public_note (file : md_file) : bool :=
  match read file with
  | Some content =>
      String.eqb (lower (get_or_empty (parse_frontmatter content) "public")) "true"
  | None => false
  end.

Definition has_now_tag (file : md_file) : bool :=
  match read file with
  | Some content => contains "now" (lower (get_or_empty (parse_frontmatter content) "tags"))
  | None => false
  end.

Definition find_public_notes (walk : list md_file) : list md_file :=
  List.filter is_public_note walk.

Definition find_now_notes (walk : list md_file) : list md_file :=
  List.filter has_now_tag walk.

(** The separator loop of [extract_assets_from_file]: [end_idx] stays 0
    unless the separator count reaches two, at line [i]. *)
Fixpoint find_body_start (i count : nat) (lines : list string) : nat :=
  match lines with
  | [] => O
  | line :: lines' =>
      if is_separator line then
        if Nat.eqb (S count) 2 then i else find_body_start (S i) (S count) lines'
      else find_body_start (S i) count lines'
  end.

Definition content_lines (content : string) : list string :=
  let lines := splitlines content in
  let end_idx := find_body_start 0 0 lines in
  if Nat.ltb 0 end_idx then List.skipn (end_idx + 1) lines else lines.

(** The inner loop: the links of one line, appended in order. *)
Definition extract_line (extracted_links : list string) (line : string) : list string :=
  fold_left
    (fun links link_path =>
       if contains "assets" link_path then links ++ [link_path] else links)
    (Re.findall line) extracted_links.

Definition extract_assets_from_text (content : string) : list string :=
  fold_left extract_line (content_lines content) [].

Definition extract_assets_from_file (file : md_file) : list string :=
  match read file with
  | Some content => extract_assets_from_text content
  | None => []
  end.

(** The set [collect_public_assets] builds in its loop. *)
Definition all_public_assets (walk : list md_file) : gset string :=
  fold_left (fun assets note => assets ∪ list_to_set (extract_assets_from_file note))
            (find_public_notes walk) ∅.

(** [collect_public_assets]; [set_iter] is the order in which [list] walks
    the elements of the Python set, and [sorted] orders [str] by code
    points. *)
Definition collect_public_assets
    (set_iter : gset string → list string) (walk : list md_file) : list string :=
  merge_sort String.le (set_iter (all_public_assets walk)).

(** The two paths [link_public_assets] computes for one whitelist entry;
    [pathjoin] is pathlib's [/]. *)
Definition asset_link_paths (pathjoin : string → string → string)
    (source_assets_dir target_dir asset_path : string) : string * string :=
  (pathjoin source_assets_dir (replace "assets/" "" asset_path),
   pathjoin target_dir (replace "assets/" "" asset_path)).

(** The test of [link_now_posts] for a file name that already carries a date. *)
Definition has_date_format (filename : string) : bool :=
  (startswith "20" filename || startswith "19" filename)
  && Nat.leb 10 (String.length filename)
  && bool_decide (String.get 4 filename = Some "-"%char)
  && bool_decide (String.get 7 filename = Some "-"%char).

Definition now_target_filename (post : md_file) : string :=
  let filename := name post in
  if has_date_format filename then filename
  else
    match read post with
    | Some content =>
        let date_str := get_or_empty (parse_frontmatter content) "date" in
        if String.eqb date_str "" then filename
        else date_str +:+ "_" +:+ filename
    | None => filename
    end.

End NotesPublisher.

(** ** Vocabulary of the specification *)

Section Vocabulary.
Import PyStr.

(** [line] is a frontmatter entry for [key] with [value]: it reads as a text
    without colon, a colon, and a text, and [key] and [value] are the two
    texts stripped. *)
Definition is_entry (line key value : string) : Prop :=
  ∃ k v, line = k +:+ ":" +:+ v ∧ contains ":" k = false
         ∧ key = strip k ∧ value = strip v.

(** The path with a leading [prefix] removed when it has one, in the words
    of the specification of asset linking. *)
Definition strip_leading (prefix s : string) : string :=
  if startswith prefix s then drop (String.length prefix) s else s.

(** The test the code makes on a file name before linking it unchanged. *)
Definition dated_name (filename : string) : Prop :=
  (startswith "20" filename = true ∨ startswith "19" filename = true)
  ∧ 10 ≤ String.length filename
  ∧ String.get 4 filename = Some "-"%char
  ∧ String.get 7 filename = Some "-"%char.

(** The rule for now posts in the words of the specification: a file name
    that begins with four digits, has a hyphen at positions 4 and 7 and is
    at least ten characters long is kept; otherwise a date field that is
    present is put in front, with an underscore. *)
Definition is_digit (c : ascii) : bool :=
  (48 <=? N_of_ascii c)%N && (N_of_ascii c <=? 57)%N.

Definition four_digit_prefix (filename : string) : bool :=
  match filename with
  | String a (String b (String c (String d _))) =>
      is_digit a && is_digit b && is_digit c && is_digit d
  | _ => false
  end.

Definition claimed_target_filename
    (filename : string) (frontmatter : gmap string string) : string :=
  if four_digit_prefix filename
     && bool_decide (String.get 4 filename = Some "-"%char)
     && bool_decide (String.get 7 filename = Some "-"%char)
     && Nat.leb 10 (String.length filename)
  then filename
  else match frontmatter !! "date" with
       | Some date => date +:+ "_" +:+ filename
       | None => filename
       end.

End Vocabulary.

(** ** Texts used in the examples *)

(** ["\n".join(lines)]. *)
Fixpoint text (lines : list string) : string :=
  match lines with
  | [] => ""
  | [l] => l
  | l :: ls => l +:+ String "010" (text ls)
  end.

(** The lines of frontmatter used in the examples: an opening separator,
    the given lines, a closing separator. *)
Definition with_frontmatter (fields body : list string) : string :=
  text ("---" :: fields ++ "---" :: body).

(** ** The console: what the publisher prints

    The effect of [print] is a list of events, one per call, each the text
    printed (without the line feed [print] adds) on standard output or on
    standard error.  [path_of] is the text of a file's path, [resolve] the
    text of its resolved path, and [error_of] the text of the exception that
    reading it raises. *)

Module Console.
Import PyStr.

Inductive event := Stdout (line : string) | Stderr (line : string).

Definition W (A : Type) : Type := A * list event.

Definition ret {A} (a : A) : W A := (a, []).

Definition bind {A B} (m : W A) (k : A → W B) : W B :=
  let (a, evs) := m in let (b, evs') := k a in (b, evs ++ evs').

Notation "'let*' x ':=' m 'in' k" := (bind m (fun x => k))
  (at level 10, x name, k at level 200).

Definition print (line : string) : W unit := (tt, [Stdout line]).

(** [for x in xs: s = body(s, x)]. *)
Fixpoint for_each {A S} (xs : list A) (body : S → A → W S) (s : S) : W S :=
  match xs with
  | [] => ret s
  | x :: xs' => let* s' := body s x in for_each xs' body s'
  end.

Definition stdout_of (evs : list event) : list string :=
  List.flat_map (fun e => match e with Stdout l => [l] | Stderr _ => [] end) evs.

Definition stderr_of (evs : list event) : list string :=
  List.flat_map (fun e => match e with Stderr l => [l] | Stdout _ => [] end) evs.

Section Publisher.
Variable verbose : bool.
Variable notes_dir : string.
Variables path_of resolve error_of : NotesPublisher.md_file → string.

Definition log (message : string) (force : bool) : W unit :=
  if verbose || force then (tt, [Stderr message]) else ret tt.

Definition is_public_note (file : NotesPublisher.md_file) : W bool :=
  match NotesPublisher.read file with
  | Some content =>
      ret (String.eqb
             (lower (NotesPublisher.get_or_empty
                       (NotesPublisher.parse_frontmatter content) "public"))
             "true")
  | None =>
      let* _ := print ("Error reading " +:+ path_of file +:+ ": " +:+ error_of file) in
      ret false
  end.

Definition has_now_tag (file : NotesPublisher.md_file) : W bool :=
  match NotesPublisher.read file with
  | Some content =>
      ret (contains "now"
             (lower (NotesPublisher.get_or_empty
                       (NotesPublisher.parse_frontmatter content) "tags")))
  | None =>
      let* _ := print ("Error reading " +:+ path_of file +:+ ": " +:+ error_of file) in
      ret false
  end.

(** [dir_exists] is [self.notes_dir.exists()] and [walk] what [rglob]
    yields. *)
Definition find_public_notes (dir_exists : bool) (walk : list NotesPublisher.md_file)
  : W (list NotesPublisher.md_file) :=
  if negb dir_exists then
    let* _ := print ("Notes directory not found: " +:+ notes_dir) in ret []
  else
    for_each walk
      (fun public_notes md_file =>
         let* public := is_public_note md_file in
         ret (if public then public_notes ++ [md_file] else public_notes))
      [].

Definition find_now_notes (dir_exists : bool) (walk : list NotesPublisher.md_file)
  : W (list NotesPublisher.md_file) :=
  if negb dir_exists then
    let* _ := print ("Notes directory not found: " +:+ notes_dir) in ret []
  else
    for_each walk
      (fun now_notes md_file =>
         let* now := has_now_tag md_file in
         ret (if now then now_notes ++ [md_file] else now_notes))
      [].

Definition scan_notes (dir_exists : bool) (walk : list NotesPublisher.md_file)
  : W (list NotesPublisher.md_file) :=
  let* _ := log ("Scanning for public notes in: " +:+ notes_dir) true in
  let* public_notes := find_public_notes dir_exists walk in
  let* _ := log (String "010" ("Found " +:+ pretty (length public_notes)
                               +:+ " public notes:")) true in
  let* _ := for_each public_notes
              (fun _ note => log ("  - " +:+ path_of note) false) tt in
  ret public_notes.

Definition output_public_paths (dir_exists : bool) (walk : list NotesPublisher.md_file)
  : W unit :=
  let* _ := log "Finding public notes for path output..." false in
  let* public_notes := find_public_notes dir_exists walk in
  let* _ := log ("Outputting " +:+ pretty (length public_notes)
                 +:+ " public note paths") false in
  for_each public_notes (fun _ note => print (resolve note)) tt.

Definition extract_assets_from_file (file : NotesPublisher.md_file) : W (list string) :=
  let* _ := log ("Extracting assets from: " +:+ NotesPublisher.name file) false in
  let* extracted_links :=
    match NotesPublisher.read file with
    | Some content =>
        for_each (NotesPublisher.content_lines content)
          (fun links line =>
             for_each (Re.findall line)
               (fun links link_path =>
                  if contains "assets" link_path then
                    let* _ := log ("  Found asset link: " +:+ link_path) false in
                    ret (links ++ [link_path])
                  else ret links)
               links)
          []
    | None =>
        let* _ := log ("Error reading " +:+ path_of file +:+ ": " +:+ error_of file)
                      true in
        ret []
    end in
  let* _ := log ("  Extracted " +:+ pretty (length extracted_links)
                 +:+ " asset links from " +:+ NotesPublisher.name file) false in
  ret extracted_links.

Definition output_forward_links (file : NotesPublisher.md_file) : W unit :=
  let* _ := log ("Getting forward links from: " +:+ path_of file) false in
  let* extracted_links := extract_assets_from_file file in
  let* _ := log ("Outputting " +:+ pretty (length extracted_links)
                 +:+ " forward links") false in
  for_each extracted_links (fun _ link_path => print link_path) tt.

Definition collect_public_assets (set_iter : gset string → list string)
    (dir_exists : bool) (walk : list NotesPublisher.md_file) : W (list string) :=
  let* _ := log "Starting collection of public assets..." false in
  let* public_notes := find_public_notes dir_exists walk in
  let* _ := log ("Collecting assets from " +:+ pretty (length public_notes)
                 +:+ " public notes...") true in
  let* all_public_assets :=
    for_each public_notes
      (fun (all_public_assets : gset string) note =>
         let* assets := extract_assets_from_file note in
         let* _ := log ("  " +:+ NotesPublisher.name note +:+ ": "
                        +:+ pretty (length assets) +:+ " assets") true in
         ret (all_public_assets ∪ list_to_set assets))
      ∅ in
  let unique_assets := merge_sort String.le (set_iter all_public_assets) in
  let* _ := log ("Total unique public assets found: "
                 +:+ pretty (length unique_assets)) false in
  ret unique_assets.

Definition output_public_assets (set_iter : gset string → list string)
    (dir_exists : bool) (walk : list NotesPublisher.md_file) : W unit :=
  let* _ := log "Starting public assets output..." false in
  let* public_assets := collect_public_assets set_iter dir_exists walk in
  let* _ := log ("Found " +:+ pretty (length public_assets)
                 +:+ " unique assets in public notes:") true in
  for_each public_assets (fun _ asset_path => print asset_path) tt.

End Publisher.

End Console.

(** * Properties *)

Import PyStr NotesPublisher.

(** ** The models on sample inputs

    Each value below is what CPython returns for the same call. *)

Example splitlines_sample :
  splitlines ("a" +:+ String "010" (String "010" ("b" +:+ String "013" (String "010"
                ("c" +:+ String "010" "")))))
  = ["a"; ""; "b"; "c"]
  ∧ splitlines (String "010" "") = [""]
  ∧ splitlines ("a" +:+ String "013" (String "013" (String "010" "b"))) = ["a"; ""; "b"].
Proof. by vm_compute. Qed.

Example strip_sample :
  strip (String "009" " a b  " +:+ String "160" (String "010" "")) = "a b"
  ∧ strip "   " = "".
Proof. by vm_compute. Qed.

Example split1_sample :
  split1 ":" " a : b : c " = [" a "; " b : c "] ∧ split1 ":" "x" = ["x"].
Proof. by vm_compute. Qed.

Example replace_sample :
  replace "aa" "b" "aaaaa" = "bba" ∧ replace "" "-" "abc" = "-a-b-c-"
  ∧ replace "assets/" "" "assets/img/assets/a.png" = "img/a.png".
Proof. by vm_compute. Qed.

Example findall_sample :
  Re.findall "[a[b](c) [x]y[z](w) [q](no" = ["c"; "w"]
  ∧ Re.findall "[](  )(](x)" = ["  "]
  ∧ Re.findall "[a](b)[c](d)" = ["b"; "d"]
  ∧ Re.findall "[[]](a)" = []
  ∧ Re.findall "[a]([b](c))" = ["[b](c"].
Proof. by vm_compute. Qed.

Example lower_sample : lower "TRUE Now" = "true now".
Proof. by vm_compute. Qed.

(** ** Strings *)

Section StringFacts.
Implicit Types (s t sub : string) (c : ascii).

Lemma str_app_cons c s t : String c s +:+ t = String c (s +:+ t).
Proof. reflexivity. Qed.

Lemma str_app_nil_l s : "" +:+ s = s.
Proof. reflexivity. Qed.

Lemma str_app_nil_r s : s +:+ "" = s.
Proof. induction s as [|c s IH]; [done | by rewrite str_app_cons, IH]. Qed.

Lemma str_app_assoc s t u : (s +:+ t) +:+ u = s +:+ (t +:+ u).
Proof. induction s as [|c s IH]; [done | by rewrite !str_app_cons, IH]. Qed.

Lemma str_app_length s t :
  String.length (s +:+ t) = String.length s + String.length t.
Proof. induction s as [|c s IH]; [done | rewrite str_app_cons; simpl; by rewrite IH]. Qed.

Lemma startswith_spec sub s :
  startswith sub s = true ↔ ∃ t, s = sub +:+ t.
Proof.
  revert s. induction sub as [|p sub IH]; intros s; simpl.
  - split; [intros _; by exists s | done].
  - destruct s as [|c s]; simpl.
    + split; [done | by intros [t ?]].
    + rewrite andb_true_iff, Ascii.eqb_eq, IH. split.
      * intros [-> [t ->]]. by exists t.
      * intros [t [= -> ->]]. eauto.
Qed.

Lemma startswith_app sub t : startswith sub (sub +:+ t) = true.
Proof. apply startswith_spec. by exists t. Qed.

(** [sub in s] holds exactly when [s] is some text, [sub], and some text. *)
Lemma contains_spec sub s :
  contains sub s = true ↔ ∃ a b, s = a +:+ sub +:+ b.
Proof.
  induction s as [|c s IH].
  - simpl. rewrite orb_false_r, startswith_spec. split.
    + intros [t ->]. by exists "", t.
    + intros [[|? a] [b Hab]]; [by exists b | done].
  - cbn [contains]. rewrite orb_true_iff, IH, startswith_spec. split.
    + intros [[t ->] | (a & b & ->)]; [by exists "", t | by exists (String c a), b].
    + intros [[|c' a] [b Hab]]; [left; by exists b |].
      injection Hab as -> ->. right. by exists a, b.
Qed.

Lemma span_until_Some c s before after :
  span_until c s = Some (before, after) ↔
  s = before +:+ String c after ∧ contains (String c "") before = false.
Proof.
  revert before after. induction s as [|d s IH]; intros before after; simpl.
  - split; [done | intros [H _]; by destruct before].
  - destruct (Ascii.eqb d c) eqn:Hdc.
    + apply Ascii.eqb_eq in Hdc as ->. split.
      * by intros [= <- <-].
      * intros [H Hno]. destruct before as [|e before]; simpl in *.
        { by injection H as ->. }
        injection H as <- _. by rewrite Ascii.eqb_refl in Hno.
    + assert (String d s = before +:+ String c after ∧
              contains (String c "") before = false →
              ∃ before', before = String d before' ∧ s = before' +:+ String c after
                         ∧ contains (String c "") before' = false) as Hcons.
      { intros [H Hno]. destruct before as [|e before]; simpl in *.
        - injection H as -> _. by rewrite Ascii.eqb_refl in Hdc.
        - injection H as <- H. apply orb_false_iff in Hno as [_ Hno]. eauto. }
      destruct (span_until c s) as [[b a]|]; split.
      * intros [= <- <-]. destruct (proj1 (IH b a) eq_refl) as [-> Hno].
        split; [done |]. simpl. by rewrite Ascii.eqb_sym, Hdc, Hno.
      * intros (before' & -> & H & Hno)%Hcons.
        by injection (proj2 (IH before' after) (conj H Hno)) as -> ->.
      * done.
      * intros (before' & -> & H & Hno)%Hcons.
        by pose proof (proj2 (IH before' after) (conj H Hno)).
Qed.

Lemma span_until_None c s :
  span_until c s = None ↔ contains (String c "") s = false.
Proof.
  induction s as [|d s IH]; simpl; [done |].
  rewrite (Ascii.eqb_sym c d). destruct (Ascii.eqb d c); simpl.
  - done.
  - destruct (span_until c s) as [[b a]|].
    + split; [done |]. intros H. by apply IH in H.
    + split; [intros _; by apply IH | done].
Qed.

End StringFacts.

(** ** The scanning functions unfold as the library functions they model *)

Section Scanning.
Implicit Types (s t : string).

Lemma drop_app s t : drop (String.length s) (s +:+ t) = t.
Proof. induction s as [|c s IH]; [by destruct t | done]. Qed.

(** A match of the link pattern: the text is a label in square brackets
    with no closing square bracket inside, then the captured target in
    parentheses with no closing parenthesis inside, then the rest. *)
Lemma match_link_spec s target rest :
  Re.match_link s = Some (target, rest) ↔
  ∃ label, s = "[" +:+ label +:+ "](" +:+ target +:+ ")" +:+ rest
           ∧ contains "]" label = false ∧ contains ")" target = false.
Proof.
  unfold Re.match_link. destruct s as [|c s1].
  { split; [done | by intros (? & ? & _)]. }
  destruct (Ascii.eqb c "[") eqn:Hc.
  2:{ split; [done |]. intros (label & [= -> _] & _). done. }
  apply Ascii.eqb_eq in Hc as ->.
  destruct (span_until "]" s1) as [[label s2]|] eqn:Hlabel.
  - apply span_until_Some in Hlabel as [-> Hlabel].
    assert (∀ label', contains "]" label' = false →
              label +:+ String "]" s2 = label' +:+ String "]" "" +:+ String "(" "" +:+ target +:+ ")" +:+ rest →
              label' = label ∧ s2 = "(" +:+ target +:+ ")" +:+ rest) as Huniq.
    { intros label' Hlabel' Heq.
      assert (span_until "]" (label +:+ String "]" s2) = Some (label, s2)) as H1
        by by apply span_until_Some.
      assert (span_until "]" (label +:+ String "]" s2)
              = Some (label', "(" +:+ target +:+ ")" +:+ rest)) as H2
        by (apply span_until_Some; by rewrite Heq).
      rewrite H1 in H2. by injection H2 as -> ->. }
    destruct s2 as [|d s2].
    { split; [done |]. intros (label' & [= Heq] & Hl & _).
      by destruct (Huniq label' Hl Heq). }
    destruct (Ascii.eqb d "(") eqn:Hd.
    + apply Ascii.eqb_eq in Hd as ->. rewrite span_until_Some. split.
      * intros [-> Htarget]. by exists label.
      * intros (label' & [= Heq] & Hl & Ht).
        destruct (Huniq label' Hl Heq) as [-> [= ->]]. done.
    + split; [done |]. intros (label' & [= Heq] & Hl & _).
      destruct (Huniq label' Hl Heq) as [_ [= -> _]]. done.
  - split; [done |]. intros (label & [= ->] & _ & _).
    apply span_until_None in Hlabel. apply not_true_iff_false in Hlabel.
    exfalso. apply Hlabel, contains_spec. by exists label, ("(" +:+ target +:+ ")" +:+ rest).
Qed.

Lemma findall_go_drop k s : Re.findall_go k s = Re.findall (drop k s).
Proof.
  revert k. induction s as [|c s IH]; intros [|k]; simpl; [done.. | apply IH].
Qed.

(** [re.findall]: a match at the start yields its group and the scan goes
    on after the match; otherwise the scan moves one character on. *)
Lemma findall_unfold s :
  Re.findall s =
  match Re.match_link s with
  | Some (target, rest) => target :: Re.findall rest
  | None => match s with "" => [] | String _ s' => Re.findall s' end
  end.
Proof.
  destruct s as [|c s]; [done |].
  unfold Re.findall at 1. cbn [Re.findall_go].
  destruct (Re.match_link (String c s)) as [[target rest]|] eqn:Hm; [|done].
  f_equal. rewrite findall_go_drop. f_equal.
  apply match_link_spec in Hm as (label & [= _ ->] & _).
  rewrite <-!str_app_assoc, str_app_length, Nat.add_sub. apply drop_app.
Qed.

(** [str.replace] with a non-empty [old]: an occurrence at the start is
    replaced and the scan goes on after it; otherwise one character is
    copied. *)
Lemma replace_go_drop old new k s :
  replace_go old new k s = replace_go old new 0 (drop k s).
Proof.
  revert k. induction s as [|c s IH]; intros [|k]; simpl; [done.. | apply IH].
Qed.

Lemma replace_unfold a old new s :
  replace (String a old) new s =
  if startswith (String a old) s
  then new +:+ replace (String a old) new (drop (String.length (String a old)) s)
  else match s with
       | "" => ""
       | String c s' => String c (replace (String a old) new s')
       end.
Proof.
  unfold replace. destruct s as [|c s]; [done |].
  cbn [replace_go]. destruct (startswith _ _) eqn:Hs; [|done].
  f_equal. rewrite replace_go_drop. f_equal. simpl. by rewrite Nat.sub_0_r.
Qed.

(** A prefix without line boundaries begins the text exactly when it begins
    the first line. *)
Lemma startswith_first_line p s :
  Forall (λ c, islinebreak c = false) (String.list_ascii_of_string p) →
  startswith p s = startswith p (hd "" (splitlines s)).
Proof.
  revert s. induction p as [|a p IH]; intros s Hp; [done |].
  apply Forall_cons in Hp as [Ha Hp].
  destruct s as [|c s]; [done |]. cbn [splitlines].
  destruct (islinebreak c) eqn:Hc.
  - assert (Ascii.eqb a c = false) as Hac.
    { apply Ascii.eqb_neq. intros ->. congruence. }
    simpl. rewrite Hac. destruct s as [|d s]; [done |]. by destruct (Ascii.eqb c _ && _).
  - simpl. rewrite (IH s Hp). by destruct (splitlines s).
Qed.

End Scanning.

(** ** Frontmatter *)

Section Frontmatter.
Implicit Types (line key value content : string) (lines : list string).
Implicit Types (fm : gmap string string).

Lemma is_separator_true line : is_separator line = true ↔ strip line = "---".
Proof. apply String.eqb_eq. Qed.

Lemma is_separator_false line : is_separator line = false ↔ strip line ≠ "---".
Proof. apply String.eqb_neq. Qed.

Lemma find_end_None i lines :
  Forall (λ l, strip l ≠ "---") lines → find_end i lines = None.
Proof.
  intros H. revert i. induction H as [|l lines Hl _ IH]; intros i; simpl; [done |].
  apply is_separator_false in Hl as ->. apply IH.
Qed.

Lemma find_end_app i between closing rest :
  Forall (λ l, strip l ≠ "---") between → strip closing = "---" →
  find_end i (between ++ closing :: rest) = Some (i + length between).
Proof.
  intros H Hc. revert i. induction H as [|l ls Hl _ IH]; intros i; simpl.
  - apply is_separator_true in Hc as ->. f_equal. lia.
  - apply is_separator_false in Hl as ->. rewrite IH. f_equal. lia.
Qed.

Lemma slice_between {A} (first : A) between closing rest :
  slice 1 (1 + length between) (first :: between ++ closing :: rest) = between.
Proof.
  unfold slice. simpl. rewrite firstn_app, firstn_all, Nat.sub_diag. simpl.
  apply List.app_nil_r.
Qed.

(** What a line stores: nothing without a colon, otherwise the stripped
    texts on the two sides of the first colon. *)
Lemma store_line_no_colon fm line :
  contains ":" line = false → store_line fm line = fm.
Proof. unfold store_line. by intros ->. Qed.

Lemma store_line_entry fm k v :
  contains ":" k = false →
  store_line fm (k +:+ ":" +:+ v) = <[strip k := strip v]> fm.
Proof.
  intros Hk. unfold store_line, split1.
  assert (span_until ":" (k +:+ ":" +:+ v) = Some (k, v)) as ->
    by by apply span_until_Some.
  assert (contains ":" (k +:+ ":" +:+ v) = true) as ->; [|done].
  apply contains_spec. by exists k, v.
Qed.

Lemma is_entry_colon line key value : is_entry line key value → contains ":" line = true.
Proof. intros (k & v & -> & _). apply contains_spec. by exists k, v. Qed.

Lemma is_entry_unique line key value key' value' :
  is_entry line key value → is_entry line key' value' → key = key' ∧ value = value'.
Proof.
  intros (k & v & -> & Hk & -> & ->) (k' & v' & Heq & Hk' & -> & ->).
  assert (span_until ":" (k +:+ ":" +:+ v) = Some (k, v)) as H1
    by by apply span_until_Some.
  assert (span_until ":" (k +:+ ":" +:+ v) = Some (k', v')) as H2
    by by apply span_until_Some.
  rewrite H1 in H2. by injection H2 as -> ->.
Qed.

Lemma is_entry_dec line :
  (∃ key value, is_entry line key value) ∨ contains ":" line = false.
Proof.
  destruct (span_until ":" line) as [[k v]|] eqn:Hs.
  - left. apply span_until_Some in Hs as [-> Hk].
    exists (strip k), (strip v), k, v. done.
  - right. by apply span_until_None.
Qed.

Lemma store_line_lookup fm line key value :
  store_line fm line !! key = Some value ↔
  is_entry line key value ∨ ((∀ v, ¬ is_entry line key v) ∧ fm !! key = Some value).
Proof.
  destruct (is_entry_dec line) as [(key' & value' & He) | Hno].
  - pose proof He as (k & v & -> & Hk & -> & ->).
    rewrite store_line_entry by done. rewrite lookup_insert. case_decide as Hkey.
    + subst key. split.
      * intros [= <-]. by left.
      * intros [He' | [Hnot _]]; [|by destruct (Hnot _ He)].
        by destruct (is_entry_unique _ _ _ _ _ He He') as [_ ->].
    + split.
      * intros Hfm. right. split; [|done]. intros v' He'.
        by destruct (is_entry_unique _ _ _ _ _ He He') as [? _].
      * intros [He' | [_ Hfm]]; [|done].
        by destruct (is_entry_unique _ _ _ _ _ He He') as [? _].
  - rewrite store_line_no_colon by done. split.
    + intros Hfm. right. split; [|done]. intros v He%is_entry_colon. congruence.
    + intros [He%is_entry_colon | [_ Hfm]]; [congruence | done].
Qed.

(** The second loop: the binding of a key is that of the last entry for
    it, or the one held before the loop when no line is an entry for it. *)
Lemma fold_store_line_lookup lines fm key value :
  fold_left store_line lines fm !! key = Some value ↔
  (∃ pre line post, lines = pre ++ line :: post ∧ is_entry line key value
                    ∧ ∀ l v, In l post → ¬ is_entry l key v)
  ∨ ((∀ l v, In l lines → ¬ is_entry l key v) ∧ fm !! key = Some value).
Proof.
  revert fm. induction lines as [|l lines IH]; intros fm; simpl.
  - split; [intros Hfm; right; by split |].
    intros [(pre & ? & ? & Hnil & _) | [_ Hfm]]; [by destruct pre | done].
  - rewrite IH, store_line_lookup. split.
    + intros [(pre & line & post & -> & He & Hpost) | [Hlines [He | [Hl Hfm]]]].
      * left. by exists (l :: pre), line, post.
      * left. by exists [], l, lines.
      * right. split; [|done]. intros l' v [<- | Hin]; [apply Hl | by apply Hlines].
    + intros [(pre & line & post & Heq & He & Hpost) | [Hall Hfm]].
      * destruct pre as [|l' pre]; simplify_eq/=.
        -- right. split; [done |]. by left.
        -- left. by exists pre, line, post.
      * right. split; [intros l' v Hin; apply Hall; by right |].
        right. split; [intros v; apply Hall; by left | done].
Qed.

Lemma parse_frontmatter_no_prefix content :
  startswith "---" content = false → parse_frontmatter content = ∅.
Proof. unfold parse_frontmatter. by intros ->. Qed.

Lemma parse_frontmatter_no_closing content :
  Forall (λ l, strip l ≠ "---") (List.skipn 1 (splitlines content)) →
  parse_frontmatter content = ∅.
Proof.
  intros H. unfold parse_frontmatter. destruct (negb _); [done |].
  by rewrite find_end_None.
Qed.

Lemma parse_frontmatter_between content first between closing rest :
  startswith "---" content = true →
  splitlines content = first :: between ++ closing :: rest →
  Forall (λ l, strip l ≠ "---") between → strip closing = "---" →
  parse_frontmatter content = fold_left store_line between ∅.
Proof.
  intros Hstart Hlines Hbetween Hclosing. unfold parse_frontmatter.
  rewrite Hstart, Hlines. simpl negb. cbv iota.
  change (List.skipn 1 (first :: between ++ closing :: rest))
    with (between ++ closing :: rest).
  rewrite find_end_app by done. by rewrite slice_between.
Qed.

End Frontmatter.

(** ** Claims on frontmatter parsing and classification *)

(** C6, as amended: a text whose first line does not begin with the three
    characters of the separator (equivalently, a text that does not begin
    with them) has an empty frontmatter mapping.  The first line need not be
    the separator exactly. *)
Theorem parse_frontmatter_first_line (content : string) :
  startswith "---" (hd "" (splitlines content)) = false →
  parse_frontmatter content = ∅.
Proof.
  intros H. apply parse_frontmatter_no_prefix.
  rewrite startswith_first_line; [done |]. by repeat constructor.
Qed.

Lemma parse_frontmatter_first_line_witness :
  startswith "---" (hd "" (splitlines (text ["# Title"; "public: true"; "---"]))) = false
  ∧ parse_frontmatter (text ["# Title"; "public: true"; "---"]) = ∅.
Proof.
  split; [reflexivity |].
  apply (parse_frontmatter_first_line (text ["# Title"; "public: true"; "---"])).
  reflexivity.
Defined.

(** C6, as stated, fails: a first line that only begins with the separator
    opens a frontmatter block. *)
Lemma parse_frontmatter_extra_opening :
  hd "" (splitlines (text ["---extra"; "public: true"; "---"])) = "---extra"
  ∧ "---extra" ≠ "---"
  ∧ parse_frontmatter (text ["---extra"; "public: true"; "---"]) !! "public"
    = Some "true"
  ∧ parse_frontmatter (text ["---extra"; "public: true"; "---"]) ≠ ∅.
Proof.
  split; [reflexivity |]. split; [done |].
  assert (parse_frontmatter (text ["---extra"; "public: true"; "---"]) !! "public"
          = Some "true") as H by by vm_compute.
  split; [done |]. intros Hempty. by rewrite Hempty in H.
Qed.

(** C7: without a closing separator line after the first line the mapping
    is empty; with one, the mapping binds a key to a value exactly when some
    line strictly between the opening line and the first closing line is an
    entry for them (split at its first colon, both sides stripped) and no
    later line in between is an entry for that key.  Lines without a colon
    are no entries. *)
Theorem parse_frontmatter_reference :
  (∀ content,
     Forall (λ l, strip l ≠ "---") (List.skipn 1 (splitlines content)) →
     parse_frontmatter content = ∅)
  ∧ (∀ content first between closing rest key value,
       startswith "---" content = true →
       splitlines content = first :: between ++ closing :: rest →
       Forall (λ l, strip l ≠ "---") between → strip closing = "---" →
       (parse_frontmatter content !! key = Some value ↔
        ∃ pre line post, between = pre ++ line :: post ∧ is_entry line key value
                         ∧ ∀ l v, In l post → ¬ is_entry l key v))
  ∧ (∀ line key value, contains ":" line = false → ¬ is_entry line key value).
Proof.
  split; [exact parse_frontmatter_no_closing |]. split.
  - intros content first between closing rest key value Hs Hl Hb Hc.
    rewrite (parse_frontmatter_between _ _ _ _ _ Hs Hl Hb Hc).
    rewrite fold_store_line_lookup. split; [|by left].
    intros [H | [_ H]]; [done | by rewrite lookup_empty in H].
  - intros line key value Hno He%is_entry_colon. congruence.
Qed.

Lemma parse_frontmatter_reference_witness :
  parse_frontmatter (text ["---"; "public: true"; "no closing line"]) = ∅
  ∧ parse_frontmatter
      (text ["---"; "date : 2024-03-01"; "a remark"; "date: 2024: 04 "; " --- "; "x: y"])
    !! "date" = Some "2024: 04".
Proof.
  destruct parse_frontmatter_reference as (Hnone & Hsome & _). split.
  - apply Hnone. vm_compute. repeat constructor; discriminate.
  - apply (Hsome _ "---" ["date : 2024-03-01"; "a remark"; "date: 2024: 04 "]
                 " --- " ["x: y"]); [reflexivity | reflexivity | | reflexivity |].
    + vm_compute. repeat constructor; discriminate.
    + exists ["date : 2024-03-01"; "a remark"], "date: 2024: 04 ", [].
      split; [reflexivity |]. split.
      * exists "date", " 2024: 04 ". repeat split; reflexivity.
      * intros l v [].
Defined.

(** C8: a file is public exactly when it can be read and its frontmatter
    binds the key public to a value whose lower-cased text is true. *)
Theorem is_public_note_iff :
  (∀ file,
     is_public_note file = true ↔
     ∃ content value, read file = Some content
       ∧ parse_frontmatter content !! "public" = Some value
       ∧ lower value = "true")
  ∧ is_public_note (MdFile "n.md" (Some (with_frontmatter ["public: TRUE"] []))) = true
  ∧ is_public_note (MdFile "n.md" (Some (with_frontmatter ["public: 1"] []))) = false
  ∧ is_public_note (MdFile "n.md" (Some (with_frontmatter ["public: yes"] []))) = false
  ∧ is_public_note (MdFile "n.md" (Some (with_frontmatter ["title: x"] []))) = false.
Proof.
  split; [|by vm_compute].
  intros [name content]. unfold is_public_note, get_or_empty. simpl.
  destruct content as [content|].
  - rewrite String.eqb_eq.
    destruct (parse_frontmatter content !! "public") as [value|] eqn:Hfm;
      simpl; split.
    + intros H. by exists content, value.
    + intros (? & ? & [= <-] & Hv & H). congruence.
    + done.
    + intros (? & ? & [= <-] & Hv & _). congruence.
  - split; [done | by intros (? & ? & ? & _)].
Qed.

(** C9: a file has the now tag exactly when it can be read and the
    lower-cased value its frontmatter binds to the key tags has the three
    letters of now somewhere inside, with any text before and after. *)
Theorem has_now_tag_iff :
  (∀ file,
     has_now_tag file = true ↔
     ∃ content value before after, read file = Some content
       ∧ parse_frontmatter content !! "tags" = Some value
       ∧ lower value = before +:+ "now" +:+ after)
  ∧ has_now_tag (MdFile "n.md" (Some (with_frontmatter ["tags: now, writing"] []))) = true
  ∧ has_now_tag (MdFile "n.md" (Some (with_frontmatter ["tags: unknown"] []))) = true
  ∧ has_now_tag (MdFile "n.md" (Some (with_frontmatter ["tags: later"] []))) = false
  ∧ has_now_tag (MdFile "n.md" (Some (with_frontmatter ["title: x"] []))) = false.
Proof.
  split; [|by vm_compute].
  intros [name content]. unfold has_now_tag, get_or_empty. simpl.
  destruct content as [content|].
  - destruct (parse_frontmatter content !! "tags") as [value|] eqn:Hfm; simpl.
    + rewrite contains_spec. split.
      * intros (a & b & H). by exists content, value, a, b.
      * intros (? & v & a & b & [= <-] & Hv & H).
        assert (v = value) as -> by congruence. by exists a, b.
    + split; [done |]. intros (? & ? & ? & ? & [= <-] & Hv & _). congruence.
  - split; [done | by intros (? & ? & ? & ? & ? & _)].
Qed.

(** ** The body of a note and its asset links *)

Section Body.
Implicit Types (line content : string) (lines pre mid post : list string).

Lemma find_body_start_second i mid sep post :
  Forall (λ l, strip l ≠ "---") mid → strip sep = "---" →
  find_body_start i 1 (mid ++ sep :: post) = i + length mid.
Proof.
  intros H Hs. revert i. induction H as [|l ls Hl _ IH]; intros i; simpl.
  - apply is_separator_true in Hs as ->. lia.
  - apply is_separator_false in Hl as ->. rewrite IH. lia.
Qed.

Lemma find_body_start_no_more i count lines :
  Forall (λ l, strip l ≠ "---") lines → find_body_start i count lines = 0.
Proof.
  intros H. revert i. induction H as [|l ls Hl _ IH]; intros i; simpl; [done |].
  apply is_separator_false in Hl as ->. apply IH.
Qed.

Lemma find_body_start_first i pre sep lines :
  Forall (λ l, strip l ≠ "---") pre → strip sep = "---" →
  find_body_start i 0 (pre ++ sep :: lines)
  = find_body_start (i + length pre + 1) 1 lines.
Proof.
  intros H Hs. revert i. induction H as [|l ls Hl _ IH]; intros i; simpl.
  - apply is_separator_true in Hs as ->. f_equal. lia.
  - apply is_separator_false in Hl as ->. rewrite IH. f_equal. lia.
Qed.

(** With two separator lines anywhere in the text, the body is what follows
    the second of them. *)
Lemma content_lines_after_second content pre sep1 mid sep2 post :
  splitlines content = pre ++ sep1 :: mid ++ sep2 :: post →
  Forall (λ l, strip l ≠ "---") pre → strip sep1 = "---" →
  Forall (λ l, strip l ≠ "---") mid → strip sep2 = "---" →
  content_lines content = post.
Proof.
  intros Hlines Hpre H1 Hmid H2. unfold content_lines. rewrite Hlines.
  rewrite find_body_start_first, find_body_start_second by done.
  replace (0 <? 0 + length pre + 1 + length mid) with true
    by (symmetry; apply Nat.ltb_lt; lia).
  replace (pre ++ sep1 :: mid ++ sep2 :: post)
    with ((pre ++ sep1 :: mid ++ [sep2]) ++ post)
    by (rewrite <-!List.app_assoc; simpl; by rewrite <-List.app_assoc).
  rewrite skipn_app.
  assert (length (pre ++ sep1 :: mid ++ [sep2])
          = 0 + length pre + 1 + length mid + 1) as Hlen.
  { rewrite List.length_app. simpl. rewrite List.length_app. simpl. lia. }
  rewrite <-Hlen, skipn_all, Nat.sub_diag. done.
Qed.

(** With fewer than two separator lines, the body is the whole text. *)
Lemma content_lines_whole content :
  (Forall (λ l, strip l ≠ "---") (splitlines content)
   ∨ ∃ pre sep mid, splitlines content = pre ++ sep :: mid
       ∧ Forall (λ l, strip l ≠ "---") pre ∧ strip sep = "---"
       ∧ Forall (λ l, strip l ≠ "---") mid) →
  content_lines content = splitlines content.
Proof.
  unfold content_lines. intros [H | (pre & sep & mid & -> & Hpre & Hsep & Hmid)].
  - by rewrite find_body_start_no_more.
  - by rewrite find_body_start_first, find_body_start_no_more.
Qed.

Lemma fold_keep_assets links acc :
  fold_left (λ links link_path,
               if contains "assets" link_path then links ++ [link_path] else links)
            links acc
  = acc ++ List.filter (contains "assets") links.
Proof.
  revert acc. induction links as [|l links IH]; intros acc; simpl.
  - by rewrite List.app_nil_r.
  - rewrite IH. destruct (contains "assets" l); [|done].
    by rewrite <-List.app_assoc.
Qed.

Lemma extract_line_app acc line :
  extract_line acc line = acc ++ List.filter (contains "assets") (Re.findall line).
Proof. apply fold_keep_assets. Qed.

Lemma fold_extract_line lines acc :
  fold_left extract_line lines acc
  = acc ++ List.flat_map (λ line, List.filter (contains "assets") (Re.findall line)) lines.
Proof.
  revert acc. induction lines as [|l lines IH]; intros acc; simpl.
  - by rewrite List.app_nil_r.
  - by rewrite IH, extract_line_app, <-List.app_assoc.
Qed.

End Body.

(** C4: the extracted links are, line of the body after line, the captured
    targets of the matches of the link pattern that contain the text assets,
    in the order of the matches and with repetitions kept; a match is a label
    in square brackets followed at once by the target in parentheses; the
    containment test is that of the exact letters. *)
Theorem extract_assets_document_order :
  (∀ content,
     extract_assets_from_text content
     = List.flat_map (λ line, List.filter (contains "assets") (Re.findall line))
                     (content_lines content))
  ∧ (∀ s, Re.findall s =
          match Re.match_link s with
          | Some (target, rest) => target :: Re.findall rest
          | None => match s with "" => [] | String _ s' => Re.findall s' end
          end)
  ∧ (∀ s target rest,
       Re.match_link s = Some (target, rest) ↔
       ∃ label, s = "[" +:+ label +:+ "](" +:+ target +:+ ")" +:+ rest
                ∧ contains "]" label = false ∧ contains ")" target = false)
  ∧ (∀ target, contains "assets" target = true ↔
               ∃ before after, target = before +:+ "assets" +:+ after)
  ∧ extract_assets_from_text "[img](assets/a.png) and [site](https://example.com)"
    = ["assets/a.png"]
  ∧ extract_assets_from_text
      (text ["[x](assets/a.png) [y](assets/b.png)"; "[z](assets/a.png) [w](Assets/c.png)"])
    = ["assets/a.png"; "assets/b.png"; "assets/a.png"].
Proof.
  split; [|split; [exact findall_unfold |split; [exact match_link_spec |]]].
  - intros content. unfold extract_assets_from_text. by rewrite fold_extract_line.
  - split; [intros target; apply contains_spec | by vm_compute].
Qed.

(** C5, on the code: a text that begins with no frontmatter block and has
    two horizontal rules loses everything up to the second rule from its
    body, where the claim keeps the entire text. *)
Theorem content_lines_without_frontmatter :
  startswith "---" (text ["intro"; "---"; "[a](assets/a.png)"; "---"; "[b](assets/b.png)"])
  = false
  ∧ parse_frontmatter
      (text ["intro"; "---"; "[a](assets/a.png)"; "---"; "[b](assets/b.png)"]) = ∅
  ∧ content_lines
      (text ["intro"; "---"; "[a](assets/a.png)"; "---"; "[b](assets/b.png)"])
    = ["[b](assets/b.png)"]
  ∧ extract_assets_from_text
      (text ["intro"; "---"; "[a](assets/a.png)"; "---"; "[b](assets/b.png)"])
    = ["assets/b.png"]
  ∧ List.flat_map (λ line, List.filter (contains "assets") (Re.findall line))
      (splitlines
         (text ["intro"; "---"; "[a](assets/a.png)"; "---"; "[b](assets/b.png)"]))
    = ["assets/a.png"; "assets/b.png"].
Proof. by vm_compute. Qed.

(** C10, as amended: the two opening tests differ.  [parse_frontmatter]
    gives the empty mapping for every text that does not begin with the
    three separator characters, while the body starts after the second line
    whose stripped text is the separator, wherever the two lines are.  So for
    a text whose first line is the separator preceded by white space, with a
    later separator line, the mapping is empty, the note is neither public
    nor a now post, and the body is what follows that later line. *)
Theorem opening_marker_tests_differ :
  (∀ content, startswith "---" content = false → parse_frontmatter content = ∅)
  ∧ (∀ content pre sep1 mid sep2 post,
       splitlines content = pre ++ sep1 :: mid ++ sep2 :: post →
       Forall (λ l, strip l ≠ "---") pre → strip sep1 = "---" →
       Forall (λ l, strip l ≠ "---") mid → strip sep2 = "---" →
       content_lines content = post)
  ∧ (∀ name content w first mid sep post,
       splitlines content = String w first :: mid ++ sep :: post →
       isspace w = true → strip (String w first) = "---" →
       Forall (λ l, strip l ≠ "---") mid → strip sep = "---" →
       parse_frontmatter content = ∅
       ∧ is_public_note (MdFile name (Some content)) = false
       ∧ has_now_tag (MdFile name (Some content)) = false
       ∧ content_lines content = post).
Proof.
  split; [exact parse_frontmatter_no_prefix |].
  split; [exact content_lines_after_second |].
  intros name content w first mid sep post Hlines Hw Hfirst Hmid Hsep.
  assert (parse_frontmatter content = ∅) as Hfm.
  { apply parse_frontmatter_no_prefix.
    rewrite startswith_first_line by by repeat constructor.
    rewrite Hlines. cbn [hd startswith].
    destruct (Ascii.eqb_spec "-" w) as [<- | _]; [by vm_compute in Hw | done]. }
  split; [done |]. unfold is_public_note, has_now_tag. simpl. rewrite Hfm.
  do 2 (split; [done |]).
  by apply (content_lines_after_second content [] (String w first) mid sep post).
Qed.

Lemma opening_marker_tests_differ_witness :
  parse_frontmatter (text [" ---"; "public: true"; "tags: now"; "---"; "[a](assets/a.png)"]) = ∅
  ∧ is_public_note
      (MdFile "n.md"
         (Some (text [" ---"; "public: true"; "tags: now"; "---"; "[a](assets/a.png)"])))
    = false
  ∧ has_now_tag
      (MdFile "n.md"
         (Some (text [" ---"; "public: true"; "tags: now"; "---"; "[a](assets/a.png)"])))
    = false
  ∧ content_lines (text [" ---"; "public: true"; "tags: now"; "---"; "[a](assets/a.png)"])
    = ["[a](assets/a.png)"].
Proof.
  destruct opening_marker_tests_differ as (_ & _ & H).
  apply (H "n.md" _ " "%char "---" ["public: true"; "tags: now"] "---"
           ["[a](assets/a.png)"]); try reflexivity.
  vm_compute. repeat constructor; discriminate.
Defined.

(** C10, as stated, fails for a first line that is the separator followed
    by white space: the text still begins with the separator characters, so
    the block is parsed and the note is public and a now post. *)
Lemma opening_marker_trailing_space :
  hd "" (splitlines (text ["--- "; "public: true"; "tags: now"; "---"; "body"])) = "--- "
  ∧ strip "--- " = "---"
  ∧ parse_frontmatter (text ["--- "; "public: true"; "tags: now"; "---"; "body"])
    !! "public" = Some "true"
  ∧ is_public_note
      (MdFile "n.md" (Some (text ["--- "; "public: true"; "tags: now"; "---"; "body"])))
    = true
  ∧ has_now_tag
      (MdFile "n.md" (Some (text ["--- "; "public: true"; "tags: now"; "---"; "body"])))
    = true.
Proof. by vm_compute. Qed.

(** ** The whitelist *)

Section Whitelist.
Implicit Types (walk : list md_file) (x : string).

Lemma elem_of_fold_union (notes : list md_file) (X : gset string) x :
  x ∈ fold_left (λ assets note, assets ∪ list_to_set (extract_assets_from_file note))
        notes X
  ↔ x ∈ X ∨ ∃ note, In note notes ∧ In x (extract_assets_from_file note).
Proof.
  revert X. induction notes as [|n notes IH]; intros X; simpl.
  - split; [by left | by intros [? | (? & [] & _)]].
  - rewrite IH, elem_of_union, elem_of_list_to_set, list_elem_of_In. split.
    + intros [[? | ?] | (note & ? & ?)]; [by left | right; exists n; auto |].
      right. exists note. auto.
    + intros [? | (note & [<- | ?] & ?)]; [by left; left | by left; right |].
      right. by exists note.
Qed.

Lemma elem_of_all_public_assets walk x :
  x ∈ all_public_assets walk ↔
  ∃ note, In note walk ∧ is_public_note note = true
          ∧ In x (extract_assets_from_file note).
Proof.
  unfold all_public_assets, find_public_notes. rewrite elem_of_fold_union. split.
  - intros [H | (note & [? ?]%filter_In & ?)]; [set_solver | by exists note].
  - intros (note & ? & ? & ?). right. exists note. by rewrite filter_In.
Qed.

Lemma all_public_assets_perm walk walk' :
  walk' ≡ₚ walk → all_public_assets walk' = all_public_assets walk.
Proof.
  intros Hperm. apply set_eq. intros x. rewrite !elem_of_all_public_assets.
  split; intros (note & Hin & ?); exists note; (split; [|done]).
  - by apply (Permutation_in _ Hperm).
  - by apply (Permutation_in _ (Permutation_sym Hperm)).
Qed.

(** The order of [sorted] on [str] is lexicographic in the code points: the
    empty text comes first, and two non-empty texts compare by their first
    characters, then by the rest. *)
Lemma str_le_lexicographic :
  (∀ t, String.le "" t)
  ∧ (∀ a s, ¬ String.le (String a s) "")
  ∧ (∀ a s b t,
       String.le (String a s) (String b t) ↔
       (N_of_ascii a < N_of_ascii b)%N ∨ (a = b ∧ String.le s t)).
Proof.
  unfold String.le, String.leb. split; [by intros [|??] |]. split; [intros a s H; exact H |].
  intros a s b t. cbn [String.compare]. unfold Ascii.compare.
  destruct (N.compare_spec (N_of_ascii a) (N_of_ascii b)) as [Heq | Hlt | Hgt].
  - assert (a = b) as -> by (rewrite <-(ascii_N_embedding a), Heq; apply ascii_N_embedding).
    split; [by right | intros [? | [_ ?]]; [lia | done]].
  - split; [by left | done].
  - split; [done | intros [? | [-> _]]; lia].
Qed.

Variable set_iter : gset string → list string.
Hypothesis set_iter_elements : ∀ X, set_iter X ≡ₚ elements X.

Lemma collect_public_assets_perm walk :
  collect_public_assets set_iter walk ≡ₚ elements (all_public_assets walk).
Proof.
  unfold collect_public_assets. by rewrite merge_sort_Permutation.
Qed.

End Whitelist.

(** C3: whatever order the set is walked in, the whitelist is sorted by the
    order of [str], has no duplicates, holds exactly the asset links of the
    public notes, and is the same list for every order of the walked notes. *)
Theorem collect_public_assets_sorted_set
    (set_iter : gset string → list string) (walk : list md_file) :
  (∀ X, set_iter X ≡ₚ elements X) →
  Sorted String.le (collect_public_assets set_iter walk)
  ∧ NoDup (collect_public_assets set_iter walk)
  ∧ (∀ x, In x (collect_public_assets set_iter walk) ↔
          ∃ note, In note walk ∧ is_public_note note = true
                  ∧ In x (extract_assets_from_file note))
  ∧ (∀ set_iter' walk',
       (∀ X, set_iter' X ≡ₚ elements X) → walk' ≡ₚ walk →
       collect_public_assets set_iter' walk' = collect_public_assets set_iter walk)
  ∧ collect_public_assets set_iter
      [MdFile "one.md" (Some (with_frontmatter ["public: true"] ["[a](assets/a.png)"]));
       MdFile "two.md"
         (Some (with_frontmatter ["public: true"]
                  ["[b](assets/b.png) and again [a](assets/a.png)"]))]
    = ["assets/a.png"; "assets/b.png"].
Proof.
  intros Hiter.
  assert (∀ it it' w w',
            (∀ X, it X ≡ₚ elements X) → (∀ X, it' X ≡ₚ elements X) → w' ≡ₚ w →
            collect_public_assets it' w' = collect_public_assets it w) as Hindep.
  { intros it it' w w' Hit Hit' Hw. apply (Sorted_unique String.le).
    - apply Sorted_merge_sort, _.
    - apply Sorted_merge_sort, _.
    - rewrite !collect_public_assets_perm by done.
      by rewrite (all_public_assets_perm w w'). }
  split; [apply Sorted_merge_sort, _ |]. split; [|split; [|split]].
  - rewrite collect_public_assets_perm by done. apply NoDup_elements.
  - intros x. rewrite <-list_elem_of_In, collect_public_assets_perm by done.
    rewrite elem_of_elements. apply elem_of_all_public_assets.
  - intros set_iter' walk' Hiter' Hperm. by apply Hindep.
  - rewrite (Hindep elements set_iter _ _ (λ X, reflexivity _) Hiter (reflexivity _)).
    by vm_compute.
Qed.

Lemma collect_public_assets_sorted_set_witness :
  (∀ X : gset string, elements X ≡ₚ elements X)
  ∧ collect_public_assets elements
      [MdFile "two.md"
         (Some (with_frontmatter ["public: TRUE"]
                  ["[b](assets/b.png) and again [a](assets/a.png)"]));
       MdFile "private.md" (Some (with_frontmatter ["public: no"] ["[c](assets/c.png)"]));
       MdFile "one.md" (Some (with_frontmatter ["public: true"] ["[a](assets/a.png)"]))]
    = ["assets/a.png"; "assets/b.png"]
  ∧ NoDup
      (collect_public_assets elements
         [MdFile "one.md" (Some (with_frontmatter ["public: true"] ["[a](assets/a.png)"]))]).
Proof.
  split; [intros X; reflexivity |]. split; [by vm_compute |].
  apply (collect_public_assets_sorted_set elements
           [MdFile "one.md" (Some (with_frontmatter ["public: true"] ["[a](assets/a.png)"]))]).
  intros X; reflexivity.
Defined.

(** ** Asset linking *)

Lemma contains_cons sub c s :
  contains sub (String c s) = false →
  startswith sub (String c s) = false ∧ contains sub s = false.
Proof. cbn [contains]. apply orb_false_iff. Qed.

Lemma replace_absent a old new s :
  contains (String a old) s = false → replace (String a old) new s = s.
Proof.
  induction s as [|c s IH]; intros Hno; [done |].
  apply contains_cons in Hno as [Hstart Hno].
  rewrite replace_unfold, Hstart. by rewrite IH.
Qed.

(** The code and a removal of the leading segment only agree on every path
    with no further occurrence of the segment. *)
Lemma asset_link_paths_leading_only pathjoin src tgt p :
  contains "assets/" (strip_leading "assets/" p) = false →
  asset_link_paths pathjoin src tgt p
  = (pathjoin src (strip_leading "assets/" p), pathjoin tgt (strip_leading "assets/" p)).
Proof.
  intros Hno. unfold asset_link_paths.
  assert (replace "assets/" "" p = strip_leading "assets/" p) as ->; [|done].
  unfold strip_leading in *. destruct (startswith "assets/" p) eqn:Hstart.
  - rewrite replace_unfold, Hstart, str_app_nil_l. by apply replace_absent.
  - by apply replace_absent.
Qed.

(** C1, on the code: every occurrence of the segment is removed, not the
    leading one only, so a path with the segment again further on is joined
    without it. *)
Theorem asset_link_paths_every_occurrence
    (pathjoin : string → string → string) (src tgt : string) :
  asset_link_paths pathjoin src tgt "assets/img/assets/a.png"
  = (pathjoin src "img/a.png", pathjoin tgt "img/a.png")
  ∧ strip_leading "assets/" "assets/img/assets/a.png" = "img/assets/a.png"
  ∧ asset_link_paths pathjoin src tgt "../assets/a.png"
    = (pathjoin src "../a.png", pathjoin tgt "../a.png")
  ∧ strip_leading "assets/" "../assets/a.png" = "../assets/a.png".
Proof. by vm_compute. Qed.

(** ** Now posts *)

Lemma has_date_format_iff filename :
  has_date_format filename = true ↔ dated_name filename.
Proof.
  unfold has_date_format, dated_name.
  rewrite !andb_true_iff, orb_true_iff, !bool_decide_eq_true, Nat.leb_le.
  tauto.
Qed.

(** C2, as amended: the file name under which a now post is linked.  The
    name is kept when it begins with 19 or 20, is at least ten characters
    long and has a hyphen at positions 4 and 7; otherwise a non-empty date
    field is put in front with an underscore, and without such a field the
    name is kept. *)
Theorem now_post_target_filename (post : md_file) (content : string) :
  read post = Some content → has_now_tag post = true →
  (dated_name (name post) → now_target_filename post = name post)
  ∧ (¬ dated_name (name post) →
     ∀ date, parse_frontmatter content !! "date" = Some date → date ≠ "" →
             now_target_filename post = date +:+ "_" +:+ name post)
  ∧ (¬ dated_name (name post) →
     parse_frontmatter content !! "date" = None
     ∨ parse_frontmatter content !! "date" = Some "" →
     now_target_filename post = name post).
Proof.
  intros Hread Hnow.
  unfold now_target_filename, get_or_empty. rewrite Hread.
  destruct (has_date_format (name post)) eqn:Hfmt.
  - apply has_date_format_iff in Hfmt. by repeat split.
  - assert (¬ dated_name (name post)) as Hnot.
    { rewrite <-has_date_format_iff. congruence. }
    split; [done |]. split.
    + intros _ date -> Hdate. simpl.
      by apply String.eqb_neq in Hdate as ->.
    + by intros _ [-> | ->].
Qed.

Lemma now_post_target_filename_witness :
  now_target_filename
    (MdFile "reflections.md"
       (Some (with_frontmatter ["tags: now, writing"; "date: 2024-03-01"] ["text"])))
  = "2024-03-01_reflections.md"
  ∧ now_target_filename
      (MdFile "2024-03-01-reflections.md"
         (Some (with_frontmatter ["tags: now"; "date: 2024-03-02"] ["text"])))
    = "2024-03-01-reflections.md".
Proof.
  split.
  - destruct (now_post_target_filename
                (MdFile "reflections.md"
                   (Some (with_frontmatter ["tags: now, writing"; "date: 2024-03-01"] ["text"])))
                _ eq_refl eq_refl) as (_ & H & _).
    apply (H ltac:(intros [[?|?] _]; discriminate) "2024-03-01");
      [by vm_compute | discriminate].
  - destruct (now_post_target_filename
                (MdFile "2024-03-01-reflections.md"
                   (Some (with_frontmatter ["tags: now"; "date: 2024-03-02"] ["text"])))
                _ eq_refl eq_refl) as (H & _).
    apply H. repeat split; [by left | simpl; lia].
Defined.

(** C2, as stated, fails: a name that begins with 20 but not with four
    digits, with hyphens at positions 4 and 7, is kept although the
    frontmatter has a date. *)
Lemma now_target_filename_not_a_year :
  has_now_tag
    (MdFile "20th-of-may.md"
       (Some (with_frontmatter ["tags: now"; "date: 2024-05-20"] ["text"]))) = true
  ∧ four_digit_prefix "20th-of-may.md" = false
  ∧ parse_frontmatter (with_frontmatter ["tags: now"; "date: 2024-05-20"] ["text"])
    !! "date" = Some "2024-05-20"
  ∧ now_target_filename
      (MdFile "20th-of-may.md"
         (Some (with_frontmatter ["tags: now"; "date: 2024-05-20"] ["text"])))
    = "20th-of-may.md"
  ∧ claimed_target_filename "20th-of-may.md"
      (parse_frontmatter (with_frontmatter ["tags: now"; "date: 2024-05-20"] ["text"]))
    = "2024-05-20_20th-of-may.md".
Proof. by vm_compute. Qed.

(** A date field that is present but empty is treated as absent. *)
Lemma now_target_filename_empty_date :
  parse_frontmatter (with_frontmatter ["tags: now"; "date:"] ["text"]) !! "date" = Some ""
  ∧ now_target_filename
      (MdFile "reflections.md" (Some (with_frontmatter ["tags: now"; "date:"] ["text"])))
    = "reflections.md".
Proof. by vm_compute. Qed.

(** * Further properties of the code *)

(** ** Stripping *)

Section Stripping.
Implicit Types (s sub : string) (c : ascii).

Lemma lstrip_idem s : lstrip (lstrip s) = lstrip s.
Proof.
  induction s as [|c s IH]; [done |]. simpl.
  destruct (isspace c) eqn:Hc; [done |]. simpl. by rewrite Hc.
Qed.

Lemma rstrip_idem s : rstrip (rstrip s) = rstrip s.
Proof.
  induction s as [|c s IH]; [done |]. cbn [rstrip].
  destruct (rstrip s) as [|d r] eqn:Hr.
  - destruct (isspace c) eqn:Hc; [done |]. simpl. by rewrite Hc.
  - cbn [rstrip]. cbn [rstrip] in IH. by rewrite IH.
Qed.

Lemma rstrip_lstrip s : rstrip (lstrip s) = lstrip (rstrip s).
Proof.
  induction s as [|c s IH]; [done |]. cbn [lstrip rstrip].
  destruct (isspace c) eqn:Hc.
  - rewrite IH. destruct (rstrip s) as [|d r]; simpl; by rewrite ?Hc.
  - cbn [rstrip]. destruct (rstrip s) as [|d r]; simpl; by rewrite Hc.
Qed.

(** [strip] is idempotent. *)
Lemma strip_idem s : strip (strip s) = strip s.
Proof.
  unfold strip. by rewrite rstrip_lstrip, lstrip_idem, rstrip_idem.
Qed.

Lemma lstrip_suffix s : ∃ a, s = a +:+ lstrip s.
Proof.
  induction s as [|c s [a IH]]; [by exists "" |]. simpl.
  destruct (isspace c); [|by exists ""].
  exists (String c a). by rewrite str_app_cons, <-IH.
Qed.

Lemma rstrip_prefix s : ∃ b, s = rstrip s +:+ b.
Proof.
  induction s as [|c s [b IH]]; [by exists "" |]. cbn [rstrip].
  destruct (rstrip s) as [|d r].
  - destruct (isspace c); [by exists (String c s) |].
    exists b. by rewrite str_app_cons, <-IH.
  - exists b. by rewrite str_app_cons, <-IH.
Qed.

(** The stripped text is a part of the text. *)
Lemma strip_infix s : ∃ a b, s = a +:+ strip s +:+ b.
Proof.
  unfold strip. destruct (rstrip_prefix s) as [b Hb].
  destruct (lstrip_suffix (rstrip s)) as [a Ha].
  exists a, b. by rewrite <-str_app_assoc, <-Ha.
Qed.

Lemma contains_strip sub s :
  contains sub s = false → contains sub (strip s) = false.
Proof.
  intros Hno. apply not_true_iff_false. intros (a & b & Heq)%contains_spec.
  apply not_true_iff_false in Hno. apply Hno, contains_spec.
  destruct (strip_infix s) as (a' & b' & Hs).
  exists (a' +:+ a), (b +:+ b'). rewrite Hs at 1. rewrite Heq.
  by rewrite !str_app_assoc.
Qed.

End Stripping.

(** ** More on frontmatter and classification *)

Section FrontmatterMore.
Implicit Types (content key value : string) (lines : list string).

Lemma find_end_Some i lines j :
  find_end i lines = Some j →
  ∃ between closing rest,
    lines = between ++ closing :: rest
    ∧ Forall (λ l, strip l ≠ "---") between ∧ strip closing = "---"
    ∧ j = i + length between.
Proof.
  revert i. induction lines as [|l lines IH]; intros i; simpl; [done |].
  destruct (is_separator l) eqn:Hl.
  - intros [= <-]. exists [], l, lines. apply is_separator_true in Hl.
    repeat split; [done.. | simpl; lia].
  - intros (between & closing & rest & -> & Hb & Hc & ->)%IH.
    apply is_separator_false in Hl.
    exists (l :: between), closing, rest. repeat split; [by constructor | done |].
    simpl. lia.
Qed.

(** Whatever the text, the mapping is the result of storing some of its
    lines, one after the other, into the empty mapping; when it is not
    empty, the text begins with the separator characters and these lines are
    the ones between the first line and the first later separator line. *)
Lemma parse_frontmatter_cases content :
  parse_frontmatter content = ∅
  ∨ ∃ first between closing rest,
      startswith "---" content = true
      ∧ splitlines content = first :: between ++ closing :: rest
      ∧ Forall (λ l, strip l ≠ "---") between ∧ strip closing = "---"
      ∧ parse_frontmatter content = fold_left store_line between ∅.
Proof.
  destruct (startswith "---" content) eqn:Hstart.
  2:{ left. by apply parse_frontmatter_no_prefix. }
  destruct (splitlines content) as [|first lines] eqn:Hlines.
  { left. apply parse_frontmatter_no_closing. by rewrite Hlines. }
  destruct (find_end 1 lines) as [j|] eqn:Hend.
  - apply find_end_Some in Hend as (between & closing & rest & -> & Hb & Hc & _).
    right. exists first, between, closing, rest. repeat split; try done.
    by apply (parse_frontmatter_between content first between closing rest).
  - left. unfold parse_frontmatter. rewrite Hstart, Hlines. simpl negb. cbv iota.
    change (List.skipn 1 (first :: lines)) with lines. by rewrite Hend.
Qed.

End FrontmatterMore.

(** X1: every key and every value of the parsed frontmatter is free of
    surrounding white space (stripping it again changes nothing), and no key
    holds a colon. *)
Theorem parse_frontmatter_trimmed (content key value : string) :
  parse_frontmatter content !! key = Some value →
  strip key = key ∧ strip value = value ∧ contains ":" key = false.
Proof.
  destruct (parse_frontmatter_cases content)
    as [-> | (first & between & closing & rest & _ & _ & _ & _ & ->)].
  { by rewrite lookup_empty. }
  rewrite fold_store_line_lookup.
  intros [(pre & line & post & _ & (k & v & _ & Hk & -> & ->) & _) | [_ H]].
  - rewrite !strip_idem. repeat split. by apply contains_strip.
  - by rewrite lookup_empty in H.
Qed.

Lemma parse_frontmatter_trimmed_witness :
  parse_frontmatter (with_frontmatter ["  title :  My: note  "] []) !! "title"
  = Some "My: note"
  ∧ strip "title" = "title" ∧ strip "My: note" = "My: note"
  ∧ contains ":" "title" = false.
Proof.
  split; [by vm_compute |].
  apply (parse_frontmatter_trimmed (with_frontmatter ["  title :  My: note  "] [])).
  by vm_compute.
Defined.

(** X2: the frontmatter, and with it both classifications, depend only on
    the lines between the opening line and the first closing line: two texts
    that begin with the separator characters and agree on these lines have
    the same mapping, whatever their first line, closing line and body. *)
Theorem parse_frontmatter_ignores_body
    (content content' first first' closing closing' : string)
    (between rest rest' : list string) (name name' : string) :
  startswith "---" content = true → startswith "---" content' = true →
  splitlines content = first :: between ++ closing :: rest →
  splitlines content' = first' :: between ++ closing' :: rest' →
  Forall (λ l, strip l ≠ "---") between →
  strip closing = "---" → strip closing' = "---" →
  parse_frontmatter content = parse_frontmatter content'
  ∧ is_public_note (MdFile name (Some content))
    = is_public_note (MdFile name' (Some content'))
  ∧ has_now_tag (MdFile name (Some content))
    = has_now_tag (MdFile name' (Some content')).
Proof.
  intros Hs Hs' Hl Hl' Hb Hc Hc'.
  assert (parse_frontmatter content = parse_frontmatter content') as Heq.
  { rewrite (parse_frontmatter_between _ _ _ _ _ Hs Hl Hb Hc).
    by rewrite (parse_frontmatter_between _ _ _ _ _ Hs' Hl' Hb Hc'). }
  unfold is_public_note, has_now_tag. simpl. by rewrite Heq.
Qed.

Lemma parse_frontmatter_ignores_body_witness :
  is_public_note
    (MdFile "a.md" (Some (text ["---"; "public: true"; "---"; "one body"])))
  = is_public_note
      (MdFile "b.md"
         (Some (text ["--- draft"; "public: true"; " --- "; "another"; "---"; "x: y"]))).
Proof.
  apply (parse_frontmatter_ignores_body
           (text ["---"; "public: true"; "---"; "one body"])
           (text ["--- draft"; "public: true"; " --- "; "another"; "---"; "x: y"])
           "---" "--- draft" "---" " --- " ["public: true"]
           ["one body"] ["another"; "---"; "x: y"] "a.md" "b.md");
    try reflexivity.
  vm_compute. repeat constructor; discriminate.
Defined.

(** X3: a note is classified public, or as a now post, only if it can be
    read, its text begins with the separator characters, and a later line is
    a separator line: a frontmatter block that is never closed classifies as
    nothing. *)
Theorem classified_notes_have_closed_frontmatter (file : md_file) :
  is_public_note file = true ∨ has_now_tag file = true →
  ∃ content first between closing rest,
    read file = Some content
    ∧ startswith "---" content = true
    ∧ splitlines content = first :: between ++ closing :: rest
    ∧ Forall (λ l, strip l ≠ "---") between ∧ strip closing = "---".
Proof.
  unfold is_public_note, has_now_tag, get_or_empty.
  destruct (read file) as [content|]; [|by intros [? | ?]].
  intros H.
  destruct (parse_frontmatter_cases content)
    as [Hempty | (first & between & closing & rest & ? & ? & ? & ? & _)].
  - rewrite Hempty, !lookup_empty in H. by destruct H.
  - by exists content, first, between, closing, rest.
Qed.

Lemma classified_notes_have_closed_frontmatter_witness :
  ∃ content first between closing rest,
    read (MdFile "n.md" (Some (with_frontmatter ["tags: now"] ["body"]))) = Some content
    ∧ startswith "---" content = true
    ∧ splitlines content = first :: between ++ closing :: rest
    ∧ Forall (λ l, strip l ≠ "---") between ∧ strip closing = "---".
Proof.
  apply (classified_notes_have_closed_frontmatter
           (MdFile "n.md" (Some (with_frontmatter ["tags: now"] ["body"])))).
  right. by vm_compute.
Defined.

(** X4: on a text that begins with the separator characters and whose first
    line is a separator line, the two passes use the same boundary: the
    frontmatter is read from the lines before the first later separator line
    and the links are taken from the lines after it, so no link of a
    frontmatter line is extracted and no body line is lost. *)
Theorem passes_agree_on_separator_first_line
    (content first closing : string) (between rest : list string) :
  startswith "---" content = true →
  splitlines content = first :: between ++ closing :: rest →
  strip first = "---" →
  Forall (λ l, strip l ≠ "---") between → strip closing = "---" →
  parse_frontmatter content = fold_left store_line between ∅
  ∧ content_lines content = rest
  ∧ extract_assets_from_text content
    = List.flat_map (λ line, List.filter (contains "assets") (Re.findall line)) rest.
Proof.
  intros Hs Hl Hf Hb Hc.
  assert (content_lines content = rest) as Hbody
    by by apply (content_lines_after_second content [] first between closing rest).
  split; [by apply (parse_frontmatter_between content first between closing rest) |].
  split; [done |].
  unfold extract_assets_from_text. by rewrite fold_extract_line, Hbody.
Qed.

Lemma passes_agree_on_separator_first_line_witness :
  content_lines
    (with_frontmatter ["public: true"; "cover: [c](assets/cover.png)"]
                      ["[a](assets/a.png)"; "text"])
  = ["[a](assets/a.png)"; "text"]
  ∧ extract_assets_from_text
      (with_frontmatter ["public: true"; "cover: [c](assets/cover.png)"]
                        ["[a](assets/a.png)"; "text"])
    = ["assets/a.png"].
Proof.
  destruct (passes_agree_on_separator_first_line
              (with_frontmatter ["public: true"; "cover: [c](assets/cover.png)"]
                                ["[a](assets/a.png)"; "text"])
              "---" "---" ["public: true"; "cover: [c](assets/cover.png)"]
              ["[a](assets/a.png)"; "text"]) as (_ & H1 & H2);
    try reflexivity.
  { vm_compute. repeat constructor; discriminate. }
  split; [exact H1 | by rewrite H2].
Defined.

(** ** More on extraction and the whitelist *)

Section ExtractionMore.
Implicit Types (s t line content : string).

(** Every capture of [re.findall] stands in parentheses in the text, after
    a closing square bracket, and holds no closing parenthesis. *)
Lemma findall_In n s t :
  String.length s ≤ n → In t (Re.findall s) →
  contains ")" t = false ∧ ∃ a b, s = a +:+ "](" +:+ t +:+ ")" +:+ b.
Proof.
  revert s. induction n as [|n IH]; intros s Hlen.
  { destruct s; [by intros [] | simpl in Hlen; lia]. }
  rewrite findall_unfold.
  destruct (Re.match_link s) as [[target rest]|] eqn:Hm.
  - apply match_link_spec in Hm as (label & -> & _ & Htarget).
    intros [<- | Hin].
    + split; [done |]. exists ("[" +:+ label), rest. by rewrite !str_app_assoc.
    + destruct (IH rest) as (Hno & a & b & ->); [|done |].
      { rewrite !str_app_length in Hlen. simpl in Hlen. lia. }
      split; [done |].
      exists ("[" +:+ label +:+ "](" +:+ target +:+ ")" +:+ a), b.
      by rewrite !str_app_assoc.
  - destruct s as [|c s]; [by intros [] |].
    intros Hin. destruct (IH s) as (Hno & a & b & ->); [simpl in Hlen; lia | done |].
    split; [done |]. by exists (String c a), b.
Qed.

Lemma extract_assets_from_text_In content link :
  In link (extract_assets_from_text content) ↔
  ∃ line, In line (content_lines content)
          ∧ In link (Re.findall line) ∧ contains "assets" link = true.
Proof.
  unfold extract_assets_from_text. rewrite fold_extract_line. simpl.
  rewrite in_flat_map. by setoid_rewrite filter_In.
Qed.

Lemma collect_public_assets_of_set it it' walk walk' :
  (∀ X, it X ≡ₚ elements X) → (∀ X, it' X ≡ₚ elements X) →
  all_public_assets walk = all_public_assets walk' →
  collect_public_assets it walk = collect_public_assets it' walk'.
Proof.
  intros Hit Hit' Hset. apply (Sorted_unique String.le).
  - apply Sorted_merge_sort, _.
  - apply Sorted_merge_sort, _.
  - rewrite !collect_public_assets_perm by done. by rewrite Hset.
Qed.

Lemma collect_public_assets_In it walk x :
  (∀ X, it X ≡ₚ elements X) →
  In x (collect_public_assets it walk) ↔ x ∈ all_public_assets walk.
Proof.
  intros Hit. rewrite <-list_elem_of_In, collect_public_assets_perm by done.
  apply elem_of_elements.
Qed.

Lemma extract_assets_from_text_link content link :
  In link (extract_assets_from_text content) →
  contains "assets" link = true ∧ contains ")" link = false
  ∧ ∃ line a b, In line (content_lines content)
                ∧ line = a +:+ "](" +:+ link +:+ ")" +:+ b.
Proof.
  intros (line & Hline & Hfind & Hassets)%extract_assets_from_text_In.
  destruct (findall_In _ line link (le_n _) Hfind) as (Hno & a & b & Heq).
  split; [done |]. split; [done |]. by exists line, a, b.
Qed.

End ExtractionMore.

(** X5: every extracted link contains the text assets, holds no closing
    parenthesis, and stands in a body line between an opening parenthesis
    that follows a closing square bracket and a closing parenthesis; a file
    that cannot be read gives no link. *)
Theorem extracted_links_are_asset_targets :
  (∀ content link,
     In link (extract_assets_from_text content) →
     contains "assets" link = true ∧ contains ")" link = false
     ∧ ∃ line a b, In line (content_lines content)
                   ∧ line = a +:+ "](" +:+ link +:+ ")" +:+ b)
  ∧ (∀ name, extract_assets_from_file (MdFile name None) = []).
Proof.
  split; [exact extract_assets_from_text_link | done].
Qed.

(** X6: a file that is not public, unreadable ones included, can stand
    anywhere in the walk without changing the whitelist, and so can a second
    copy of a file. *)
Theorem whitelist_ignores_private_files
    (it : gset string → list string) (walk1 walk2 : list md_file) (file : md_file) :
  (∀ X, it X ≡ₚ elements X) →
  is_public_note file = false ∨ In file (walk1 ++ walk2) →
  collect_public_assets it (walk1 ++ file :: walk2)
  = collect_public_assets it (walk1 ++ walk2).
Proof.
  intros Hit Hfile. apply collect_public_assets_of_set; [done.. |].
  apply set_eq. intros x. rewrite !elem_of_all_public_assets.
  split; intros (note & Hin & Hpub & Hx).
  - apply in_app_iff in Hin as [Hin | [<- | Hin]].
    + exists note. rewrite in_app_iff. auto.
    + destruct Hfile as [Hfile | Hfile]; [congruence | by exists file].
    + exists note. rewrite in_app_iff. auto.
  - exists note. split; [|done].
    apply in_app_iff in Hin as [Hin | Hin]; apply in_app_iff; [by left |].
    right. by right.
Qed.

Lemma whitelist_ignores_private_files_witness :
  collect_public_assets elements
    ([MdFile "a.md" (Some (with_frontmatter ["public: true"] ["[a](assets/a.png)"]))]
     ++ MdFile "locked.md" None :: [])
  = collect_public_assets elements
      ([MdFile "a.md" (Some (with_frontmatter ["public: true"] ["[a](assets/a.png)"]))]
       ++ []).
Proof.
  apply (whitelist_ignores_private_files elements); [intros X; reflexivity |].
  left. reflexivity.
Defined.

(** X7: the whitelist of two walks put together holds exactly the entries
    of the whitelist of the one and of the whitelist of the other. *)
Theorem whitelist_of_concatenation
    (it : gset string → list string) (walk1 walk2 : list md_file) (x : string) :
  (∀ X, it X ≡ₚ elements X) →
  In x (collect_public_assets it (walk1 ++ walk2)) ↔
  In x (collect_public_assets it walk1) ∨ In x (collect_public_assets it walk2).
Proof.
  intros Hit. rewrite !collect_public_assets_In, !elem_of_all_public_assets by done.
  split.
  - intros (note & [Hin | Hin]%in_app_iff & ?); [left | right]; by exists note.
  - intros [(note & Hin & ?) | (note & Hin & ?)]; exists note;
      (split; [apply in_app_iff; auto | done]).
Qed.

Lemma whitelist_of_concatenation_witness :
  In "assets/b.png"
    (collect_public_assets elements
       ([MdFile "a.md" (Some (with_frontmatter ["public: true"] ["[a](assets/a.png)"]))]
        ++ [MdFile "b.md" (Some (with_frontmatter ["public: true"] ["[b](assets/b.png)"]))])).
Proof.
  apply (whitelist_of_concatenation elements); [intros X; reflexivity |].
  right. vm_compute. by left.
Defined.

(** X8: every whitelist entry contains the text assets and no closing
    parenthesis, and the whitelist is empty exactly when no public note has
    an asset link in its body. *)
Theorem whitelist_entries (it : gset string → list string) (walk : list md_file) :
  (∀ X, it X ≡ₚ elements X) →
  (∀ x, In x (collect_public_assets it walk) →
        contains "assets" x = true ∧ contains ")" x = false)
  ∧ (collect_public_assets it walk = [] ↔
     ∀ note, In note walk → is_public_note note = true →
             extract_assets_from_file note = []).
Proof.
  intros Hit. split.
  - intros x Hx. apply collect_public_assets_In in Hx; [|done].
    apply elem_of_all_public_assets in Hx as (note & _ & _ & Hx).
    unfold extract_assets_from_file in Hx. destruct (read note); [|done].
    by destruct (extract_assets_from_text_link _ _ Hx) as (? & ? & _).
  - split.
    + intros Hnil note Hin Hpub.
      destruct (extract_assets_from_file note) as [|x xs] eqn:Hx; [done |].
      assert (In x (collect_public_assets it walk)) as Hin'.
      { apply collect_public_assets_In; [done |].
        apply elem_of_all_public_assets. exists note. rewrite Hx.
        split; [done |]. split; [done |]. by left. }
      by rewrite Hnil in Hin'.
    + intros Hall. destruct (collect_public_assets it walk) as [|x xs] eqn:Hc; [done |].
      assert (In x (collect_public_assets it walk)) as Hin by (rewrite Hc; by left).
      apply collect_public_assets_In in Hin; [|done].
      apply elem_of_all_public_assets in Hin as (note & Hin & Hpub & Hx).
      by rewrite (Hall note Hin Hpub) in Hx.
Qed.

Lemma whitelist_entries_witness :
  collect_public_assets elements
    [MdFile "a.md" (Some (with_frontmatter ["public: true"] ["[s](https://example.com)"]));
     MdFile "b.md" (Some (with_frontmatter ["public: no"] ["[b](assets/b.png)"]))]
  = [].
Proof.
  apply (whitelist_entries elements); [intros X; reflexivity |].
  intros note [<- | [<- | []]]; by vm_compute.
Defined.

(** ** More on linking *)

Section LinkingMore.
Implicit Types (s t d : string).

Lemma startswith_app_r p d s : startswith p d = true → startswith p (d +:+ s) = true.
Proof.
  intros [t ->]%startswith_spec. rewrite str_app_assoc. apply startswith_app.
Qed.

Lemma get_app_l i d s c :
  String.get i d = Some c → String.get i (d +:+ s) = Some c.
Proof.
  revert i. induction d as [|e d IH]; intros i; [by destruct i |].
  rewrite str_app_cons. destruct i as [|i]; simpl; [done | apply IH].
Qed.

Lemma has_date_format_app d s :
  has_date_format d = true → has_date_format (d +:+ s) = true.
Proof.
  rewrite !has_date_format_iff. intros (Hp & Hlen & H4 & H7).
  repeat split.
  - destruct Hp as [Hp | Hp]; [left | right]; by apply startswith_app_r.
  - rewrite str_app_length. lia.
  - by apply get_app_l.
  - by apply get_app_l.
Qed.

End LinkingMore.

(** X11: a date field that itself passes the date-format test of
    [link_now_posts] always leads to a link name that passes it: the name
    is either kept because it passes, or begins with the date. *)
Theorem now_target_filename_dated (post : md_file) (content date : string) :
  read post = Some content →
  parse_frontmatter content !! "date" = Some date →
  has_date_format date = true →
  has_date_format (now_target_filename post) = true.
Proof.
  intros Hread Hdate Hfmt. unfold now_target_filename, get_or_empty.
  destruct (has_date_format (name post)) eqn:Hname; [done |].
  rewrite Hread, Hdate. simpl.
  destruct (String.eqb_spec date "") as [-> | _]; [done |].
  by apply has_date_format_app.
Qed.

Lemma now_target_filename_dated_witness :
  has_date_format
    (now_target_filename
       (MdFile "reflections.md"
          (Some (with_frontmatter ["tags: now"; "date: 2024-03-01"] ["text"]))))
  = true.
Proof.
  apply (now_target_filename_dated _
           (with_frontmatter ["tags: now"; "date: 2024-03-01"] ["text"]) "2024-03-01");
    [reflexivity | by vm_compute | reflexivity].
Defined.

(** X12: for every whitelist path in which the segment occurs at most as
    its leading segment, the two paths of a link are the directories joined
    with the path without that leading segment. *)
Theorem asset_link_paths_usual_paths
    (pathjoin : string → string → string) (src tgt p : string) :
  contains "assets/" (strip_leading "assets/" p) = false →
  asset_link_paths pathjoin src tgt p
  = (pathjoin src (strip_leading "assets/" p), pathjoin tgt (strip_leading "assets/" p)).
Proof. apply asset_link_paths_leading_only. Qed.

Lemma asset_link_paths_usual_paths_witness :
  asset_link_paths (λ dir rel, dir +:+ "/" +:+ rel) "Notes/assets" "docs/posts/assets"
    "assets/img/a.png"
  = ("Notes/assets/img/a.png", "docs/posts/assets/img/a.png").
Proof.
  apply (asset_link_paths_usual_paths (λ dir rel, dir +:+ "/" +:+ rel)
           "Notes/assets" "docs/posts/assets" "assets/img/a.png").
  reflexivity.
Defined.

(** ** The console *)

(** The lines [is_public_note] and [has_now_tag] print for the files of a
    walk that cannot be read. *)
Definition read_errors (path_of error_of : md_file → string) (walk : list md_file)
  : list string :=
  List.flat_map
    (λ file, match read file with
             | Some _ => []
             | None => ["Error reading " +:+ path_of file +:+ ": " +:+ error_of file]
             end) walk.

(** What [log] writes. *)
Definition log_lines (verbose : bool) (message : string) (force : bool) : list string :=
  if verbose || force then [message] else [].

Section ConsoleFacts.
Variable verbose : bool.
Variable notes_dir : string.
Variables path_of resolve error_of : md_file → string.
Implicit Types (evs : list Console.event) (walk : list md_file) (file : md_file).

Lemma stdout_of_app evs evs' :
  Console.stdout_of (evs ++ evs') = Console.stdout_of evs ++ Console.stdout_of evs'.
Proof. apply flat_map_app. Qed.

Lemma stderr_of_app evs evs' :
  Console.stderr_of (evs ++ evs') = Console.stderr_of evs ++ Console.stderr_of evs'.
Proof. apply flat_map_app. Qed.

Lemma stdout_of_Stdout ls : Console.stdout_of (List.map Console.Stdout ls) = ls.
Proof. induction ls as [|l ls IH]; [done | simpl; by rewrite IH]. Qed.

Lemma stderr_of_Stdout ls : Console.stderr_of (List.map Console.Stdout ls) = [].
Proof. induction ls as [|l ls IH]; [done | simpl; by rewrite IH]. Qed.

Lemma stdout_of_Stderr ls : Console.stdout_of (List.map Console.Stderr ls) = [].
Proof. induction ls as [|l ls IH]; [done | simpl; by rewrite IH]. Qed.

Lemma stderr_of_Stderr ls : Console.stderr_of (List.map Console.Stderr ls) = ls.
Proof. induction ls as [|l ls IH]; [done | simpl; by rewrite IH]. Qed.

Lemma bind_pair {A B} (a : A) evs (k : A → Console.W B) :
  Console.bind (a, evs) k = ((k a).1, evs ++ (k a).2).
Proof. simpl. by destruct (k a). Qed.

Lemma bind_ret {A B} (a : A) (k : A → Console.W B) :
  Console.bind (Console.ret a) k = k a.
Proof. unfold Console.bind, Console.ret. by destruct (k a). Qed.

Lemma log_run message force :
  Console.log verbose message force
  = (tt, List.map Console.Stderr (log_lines verbose message force)).
Proof. unfold Console.log, log_lines. by destruct (verbose || force). Qed.

(** A loop whose events depend on the element only. *)
Lemma for_each_run {A S} (f : S → A → S) (g : A → list Console.event)
    (body : S → A → Console.W S) (xs : list A) (s : S) :
  (∀ s x, body s x = (f s x, g x)) →
  Console.for_each xs body s = (fold_left f xs s, List.flat_map g xs).
Proof.
  intros Hbody. revert s. induction xs as [|x xs IH]; intros s; [done |].
  cbn [Console.for_each]. rewrite Hbody, bind_pair, IH. done.
Qed.

Lemma fold_left_keep {A} (p : A → bool) (xs acc : list A) :
  fold_left (λ acc x, if p x then acc ++ [x] else acc) xs acc
  = acc ++ List.filter p xs.
Proof.
  revert acc. induction xs as [|x xs IH]; intros acc; simpl.
  - by rewrite List.app_nil_r.
  - rewrite IH. destruct (p x); [|done]. by rewrite <-List.app_assoc.
Qed.

Lemma flat_map_map_one {A B} (h : A → B) (xs : list A) :
  List.flat_map (λ x, [h x]) xs = List.map h xs.
Proof. induction xs as [|x xs IH]; [done | simpl; by rewrite IH]. Qed.

Lemma flat_map_map_out {A B C} (c : B → C) (h : A → list B) (xs : list A) :
  List.flat_map (λ x, List.map c (h x)) xs = List.map c (List.flat_map h xs).
Proof.
  induction xs as [|x xs IH]; [done |]. simpl. by rewrite IH, List.map_app.
Qed.

Lemma flat_map_keep {A B} (p : A → bool) (h : A → list B) (xs : list A) :
  List.flat_map (λ x, if p x then h x else []) xs
  = List.flat_map h (List.filter p xs).
Proof.
  induction xs as [|x xs IH]; [done |]. simpl.
  destruct (p x); simpl; by rewrite IH.
Qed.

Lemma print_each_run (h : md_file → string) (notes : list md_file) :
  Console.for_each notes (λ _ note, Console.print (h note)) tt
  = (tt, List.map Console.Stdout (List.map h notes)).
Proof.
  rewrite (for_each_run (λ _ _, tt) (λ note, [Console.Stdout (h note)])) by done.
  destruct (fold_left _ _ _). by rewrite flat_map_map_one, List.map_map.
Qed.

Lemma print_lines_run (lines : list string) :
  Console.for_each lines (λ _ line, Console.print line) tt
  = (tt, List.map Console.Stdout lines).
Proof.
  rewrite (for_each_run (λ _ _, tt) (λ line, [Console.Stdout line])) by done.
  destruct (fold_left _ _ _). by rewrite flat_map_map_one.
Qed.

Lemma is_public_note_run file :
  Console.is_public_note path_of error_of file
  = (is_public_note file, List.map Console.Stdout (read_errors path_of error_of [file])).
Proof.
  unfold Console.is_public_note, is_public_note, read_errors. simpl.
  by destruct (read file).
Qed.

Lemma has_now_tag_run file :
  Console.has_now_tag path_of error_of file
  = (has_now_tag file, List.map Console.Stdout (read_errors path_of error_of [file])).
Proof.
  unfold Console.has_now_tag, has_now_tag, read_errors. simpl.
  by destruct (read file).
Qed.

Lemma read_errors_flat walk :
  List.flat_map (λ file, List.map Console.Stdout (read_errors path_of error_of [file])) walk
  = List.map Console.Stdout (read_errors path_of error_of walk).
Proof.
  induction walk as [|file walk IH]; [done |]. cbn [List.flat_map]. rewrite IH.
  unfold read_errors. cbn [List.flat_map]. by rewrite List.app_nil_r, List.map_app.
Qed.

Lemma find_public_notes_run walk :
  Console.find_public_notes notes_dir path_of error_of true walk
  = (find_public_notes walk,
     List.map Console.Stdout (read_errors path_of error_of walk)).
Proof.
  unfold Console.find_public_notes. simpl negb. cbv iota.
  rewrite (for_each_run
             (λ acc file, if is_public_note file then acc ++ [file] else acc)
             (λ file, List.map Console.Stdout (read_errors path_of error_of [file]))).
  - by rewrite fold_left_keep, read_errors_flat.
  - intros s x. rewrite is_public_note_run, bind_pair. simpl.
    by rewrite List.app_nil_r.
Qed.

Lemma find_now_notes_run walk :
  Console.find_now_notes notes_dir path_of error_of true walk
  = (find_now_notes walk,
     List.map Console.Stdout (read_errors path_of error_of walk)).
Proof.
  unfold Console.find_now_notes. simpl negb. cbv iota.
  rewrite (for_each_run
             (λ acc file, if has_now_tag file then acc ++ [file] else acc)
             (λ file, List.map Console.Stdout (read_errors path_of error_of [file]))).
  - by rewrite fold_left_keep, read_errors_flat.
  - intros s x. rewrite has_now_tag_run, bind_pair. simpl.
    by rewrite List.app_nil_r.
Qed.

End ConsoleFacts.

Section ConsoleRuns.
Variable verbose : bool.
Variable notes_dir : string.
Variables path_of resolve error_of : md_file → string.
Implicit Types (evs : list Console.event) (walk : list md_file) (file : md_file).

(** The summary line of [collect_public_assets] for one note. *)
Definition assets_line (note : md_file) : string :=
  "  " +:+ name note +:+ ": "
  +:+ pretty (length (extract_assets_from_file note)) +:+ " assets".

(** What [extract_assets_from_file] writes on standard error. *)
Definition extract_lines (file : md_file) : list string :=
  log_lines verbose ("Extracting assets from: " +:+ name file) false
  ++ match read file with
     | Some _ =>
         List.flat_map
           (λ link, log_lines verbose ("  Found asset link: " +:+ link) false)
           (extract_assets_from_file file)
     | None => ["Error reading " +:+ path_of file +:+ ": " +:+ error_of file]
     end
  ++ log_lines verbose
       ("  Extracted " +:+ pretty (length (extract_assets_from_file file))
        +:+ " asset links from " +:+ name file) false.

Lemma log_lines_force message : log_lines verbose message true = [message].
Proof. unfold log_lines. by rewrite orb_true_r. Qed.

Lemma found_lines_line (links : list string) :
  List.flat_map
    (λ link, if contains "assets" link
             then List.map Console.Stderr
                    (log_lines verbose ("  Found asset link: " +:+ link) false)
             else []) links
  = List.map Console.Stderr
      (List.flat_map
         (λ link, log_lines verbose ("  Found asset link: " +:+ link) false)
         (List.filter (contains "assets") links)).
Proof.
  induction links as [|l links IH]; [done |]. simpl.
  destruct (contains "assets" l); simpl; rewrite IH; [|done].
  by rewrite List.map_app.
Qed.

Lemma extract_assets_from_file_run file :
  Console.extract_assets_from_file verbose path_of error_of file
  = (extract_assets_from_file file, List.map Console.Stderr (extract_lines file)).
Proof.
  unfold Console.extract_assets_from_file, extract_lines, extract_assets_from_file.
  rewrite log_run, bind_pair.
  destruct (read file) as [content|].
  - rewrite (for_each_run extract_line
               (λ line, List.flat_map
                  (λ link, if contains "assets" link
                           then List.map Console.Stderr
                                  (log_lines verbose ("  Found asset link: " +:+ link) false)
                           else []) (Re.findall line))).
    2:{ intros links line.
        rewrite (for_each_run
                   (λ links link, if contains "assets" link
                                  then links ++ [link] else links)
                   (λ link, if contains "assets" link
                            then List.map Console.Stderr
                                   (log_lines verbose ("  Found asset link: " +:+ link) false)
                            else [])); [done |].
        intros s x. destruct (contains "assets" x); [|done].
        rewrite log_run, bind_pair. simpl. by rewrite List.app_nil_r. }
    rewrite bind_pair, log_run, bind_pair. cbn [fst snd Console.ret].
    fold (extract_assets_from_text content). f_equal.
    rewrite List.app_nil_r, !List.map_app. f_equal. f_equal.
    unfold extract_assets_from_text. rewrite fold_extract_line. simpl.
    induction (content_lines content) as [|line lines IH]; [done |].
    cbn [List.flat_map]. rewrite IH, found_lines_line.
    by rewrite flat_map_app, List.map_app.
  - rewrite log_run, !bind_pair, log_run, bind_pair. cbn [fst snd Console.ret].
    f_equal. by rewrite log_lines_force, !List.app_nil_r, !List.map_app.
Qed.

Lemma extract_lines_quiet file :
  verbose = false →
  extract_lines file
  = match read file with
    | Some _ => []
    | None => ["Error reading " +:+ path_of file +:+ ": " +:+ error_of file]
    end.
Proof.
  intros Hquiet. unfold extract_lines, log_lines. rewrite Hquiet. simpl.
  destruct (read file); [|done]. rewrite List.app_nil_r.
  by induction (extract_assets_from_file file).
Qed.

Lemma collect_public_assets_run it walk :
  Console.collect_public_assets verbose notes_dir path_of error_of it true walk
  = (collect_public_assets it walk,
     List.map Console.Stderr
       (log_lines verbose "Starting collection of public assets..." false)
     ++ List.map Console.Stdout (read_errors path_of error_of walk)
     ++ List.map Console.Stderr
          (log_lines verbose
             ("Collecting assets from " +:+ pretty (length (find_public_notes walk))
              +:+ " public notes...") true
           ++ List.flat_map (λ note, extract_lines note ++ [assets_line note])
                (find_public_notes walk)
           ++ log_lines verbose
                ("Total unique public assets found: "
                 +:+ pretty (length (collect_public_assets it walk))) false)).
Proof.
  unfold Console.collect_public_assets.
  rewrite log_run, bind_pair, find_public_notes_run, bind_pair, log_run, bind_pair.
  rewrite (for_each_run
             (λ (assets : gset string) note,
                assets ∪ list_to_set (extract_assets_from_file note))
             (λ note, List.map Console.Stderr (extract_lines note ++ [assets_line note]))).
  2:{ intros s x. rewrite extract_assets_from_file_run, bind_pair, log_run, bind_pair.
      cbn [fst snd Console.ret]. f_equal.
      by rewrite log_lines_force, List.app_nil_r, List.map_app. }
  rewrite bind_pair, log_run, bind_pair. cbn [fst snd Console.ret].
  fold (all_public_assets walk). fold (collect_public_assets it walk). f_equal.
  by rewrite flat_map_map_out, List.app_nil_r, !List.map_app.
Qed.

Lemma public_notes_readable walk :
  Forall (λ note, is_Some (read note)) (find_public_notes walk).
Proof.
  apply List.Forall_forall. intros note [_ Hpub]%filter_In.
  unfold is_public_note in Hpub. by destruct (read note).
Qed.

End ConsoleRuns.

(** X13: with the notes directory present, [output_public_paths] prints on
    standard output first one error line for each file of the walk that
    cannot be read, then the resolved path of each public note, in walk
    order; without the verbose flag it writes nothing on standard error. *)
Theorem output_public_paths_console
    (verbose : bool) (notes_dir : string) (path_of resolve error_of : md_file → string)
    (walk : list md_file) :
  Console.stdout_of
    (Console.output_public_paths verbose notes_dir path_of resolve error_of true walk).2
  = read_errors path_of error_of walk ++ List.map resolve (find_public_notes walk)
  ∧ ∀ dir_exists,
      Console.stderr_of
        (Console.output_public_paths false notes_dir path_of resolve error_of
           dir_exists walk).2
      = [].
Proof.
  split.
  - unfold Console.output_public_paths.
    rewrite log_run, bind_pair, find_public_notes_run, bind_pair, log_run, bind_pair.
    rewrite print_each_run. cbn [fst snd].
    rewrite !stdout_of_app, !stdout_of_Stderr, !stdout_of_Stdout. done.
  - intros [|]; unfold Console.output_public_paths.
    + rewrite log_run, bind_pair, find_public_notes_run, bind_pair, log_run, bind_pair.
      rewrite print_each_run. cbn [fst snd].
      rewrite !stderr_of_app, !stderr_of_Stderr, !stderr_of_Stdout. done.
    + done.
Qed.

(** X14: [output_forward_links] prints on standard output exactly the
    asset links of the file, in document order, whatever the verbose flag;
    without the flag, standard error stays empty for a file that can be
    read and gets the one error line for a file that cannot, for which
    nothing is printed on standard output. *)
Theorem output_forward_links_console
    (verbose : bool) (path_of error_of : md_file → string) (file : md_file) :
  Console.stdout_of (Console.output_forward_links verbose path_of error_of file).2
  = extract_assets_from_file file
  ∧ Console.stderr_of (Console.output_forward_links false path_of error_of file).2
    = match read file with
      | Some _ => []
      | None => ["Error reading " +:+ path_of file +:+ ": " +:+ error_of file]
      end.
Proof.
  unfold Console.output_forward_links. split.
  - rewrite log_run, bind_pair, extract_assets_from_file_run, bind_pair, log_run,
      bind_pair, print_lines_run. cbn [fst snd].
    rewrite !stdout_of_app, !stdout_of_Stderr, stdout_of_Stdout. done.
  - rewrite log_run, bind_pair, extract_assets_from_file_run, bind_pair, log_run,
      bind_pair, print_lines_run. cbn [fst snd].
    rewrite !stderr_of_app, !stderr_of_Stderr, stderr_of_Stdout.
    rewrite extract_lines_quiet by done. simpl. by rewrite !List.app_nil_r.
Qed.

(** X15: with the notes directory present, [output_public_assets] prints on
    standard output one error line for each file that cannot be read, then
    the whitelist, one entry per line; without the verbose flag, standard
    error gets the count of public notes, one summary line per public note
    and the count of whitelist entries. *)
Theorem output_public_assets_console
    (verbose : bool) (notes_dir : string) (path_of error_of : md_file → string)
    (it : gset string → list string) (walk : list md_file) :
  Console.stdout_of
    (Console.output_public_assets verbose notes_dir path_of error_of it true walk).2
  = read_errors path_of error_of walk ++ collect_public_assets it walk
  ∧ Console.stderr_of
      (Console.output_public_assets false notes_dir path_of error_of it true walk).2
    = ["Collecting assets from " +:+ pretty (length (find_public_notes walk))
       +:+ " public notes..."]
      ++ List.map assets_line (find_public_notes walk)
      ++ ["Found " +:+ pretty (length (collect_public_assets it walk))
          +:+ " unique assets in public notes:"].
Proof.
  unfold Console.output_public_assets. split.
  - rewrite log_run, bind_pair, collect_public_assets_run, bind_pair, log_run,
      bind_pair, print_lines_run. cbn [fst snd].
    rewrite !stdout_of_app, !stdout_of_Stderr, !stdout_of_Stdout. simpl.
    by rewrite List.app_nil_r.
  - rewrite log_run, bind_pair, collect_public_assets_run, bind_pair, log_run,
      bind_pair, print_lines_run. cbn [fst snd].
    rewrite !stderr_of_app, !stderr_of_Stderr, !stderr_of_Stdout.
    rewrite !log_lines_force. unfold log_lines. simpl.
    rewrite !List.app_nil_r. do 2 f_equal.
    pose proof (public_notes_readable walk) as Hread.
    induction Hread as [|note notes [content Hnote] _ IH]; [done |].
    cbn [List.flat_map List.map]. rewrite IH, extract_lines_quiet by done.
    by rewrite Hnote.
Qed.

(** X16: [scan_notes] returns the public notes of the walk in walk order;
    it prints on standard output only the error lines of the files that
    cannot be read, and writes on standard error the directory and the
    count, followed under the verbose flag by one line per public note. *)
Theorem scan_notes_console
    (verbose : bool) (notes_dir : string) (path_of error_of : md_file → string)
    (walk : list md_file) :
  (Console.scan_notes verbose notes_dir path_of error_of true walk).1
  = find_public_notes walk
  ∧ Console.stdout_of (Console.scan_notes verbose notes_dir path_of error_of true walk).2
    = read_errors path_of error_of walk
  ∧ Console.stderr_of (Console.scan_notes verbose notes_dir path_of error_of true walk).2
    = ["Scanning for public notes in: " +:+ notes_dir;
       String "010" ("Found " +:+ pretty (length (find_public_notes walk))
                     +:+ " public notes:")]
      ++ (if verbose
          then List.map (λ note, "  - " +:+ path_of note) (find_public_notes walk)
          else []).
Proof.
  unfold Console.scan_notes.
  rewrite log_run, bind_pair, find_public_notes_run, bind_pair, log_run, bind_pair.
  rewrite (for_each_run (λ _ _, tt)
             (λ note, List.map Console.Stderr
                        (log_lines verbose ("  - " +:+ path_of note) false)))
    by (intros; apply log_run).
  rewrite bind_pair. cbn [fst snd Console.ret]. split; [done |].
  rewrite flat_map_map_out, !log_lines_force. split.
  - rewrite !stdout_of_app, !stdout_of_Stderr, !stdout_of_Stdout. simpl.
    by rewrite List.app_nil_r.
  - rewrite !stderr_of_app, !stderr_of_Stderr, !stderr_of_Stdout, List.app_nil_r.
    simpl. do 2 f_equal. unfold log_lines. destruct verbose; simpl.
    + apply flat_map_map_one.
    + by induction (find_public_notes walk).
Qed.

(** X17: what the functions return does not depend on the verbose flag:
    with the notes directory present, [find_public_notes] and
    [find_now_notes] return the public notes and the now posts of the walk,
    [extract_assets_from_file] the asset links of the file and
    [collect_public_assets] the whitelist; with the directory missing, both
    searches return nothing and print the one line that says so. *)
Theorem results_independent_of_verbose
    (verbose : bool) (notes_dir : string) (path_of error_of : md_file → string)
    (it : gset string → list string) (walk : list md_file) (file : md_file) :
  (Console.find_public_notes notes_dir path_of error_of true walk).1
  = find_public_notes walk
  ∧ (Console.find_now_notes notes_dir path_of error_of true walk).1
    = find_now_notes walk
  ∧ (Console.extract_assets_from_file verbose path_of error_of file).1
    = extract_assets_from_file file
  ∧ (Console.collect_public_assets verbose notes_dir path_of error_of it true walk).1
    = collect_public_assets it walk
  ∧ Console.find_public_notes notes_dir path_of error_of false walk
    = ([], [Console.Stdout ("Notes directory not found: " +:+ notes_dir)])
  ∧ Console.find_now_notes notes_dir path_of error_of false walk
    = ([], [Console.Stdout ("Notes directory not found: " +:+ notes_dir)]).
Proof.
  rewrite find_public_notes_run, find_now_notes_run, extract_assets_from_file_run,
    collect_public_assets_run.
  by repeat split.
Qed.

(** X18: with the notes directory missing, the three listing commands print
    on standard output the one line that says so and nothing else. *)
Theorem missing_notes_directory
    (verbose : bool) (notes_dir : string) (path_of resolve error_of : md_file → string)
    (it : gset string → list string) (walk : list md_file) :
  (∀ X, it X ≡ₚ elements X) →
  Console.stdout_of
    (Console.output_public_paths verbose notes_dir path_of resolve error_of false walk).2
  = ["Notes directory not found: " +:+ notes_dir]
  ∧ Console.stdout_of
      (Console.output_public_assets verbose notes_dir path_of error_of it false walk).2
    = ["Notes directory not found: " +:+ notes_dir]
  ∧ Console.stdout_of
      (Console.scan_notes verbose notes_dir path_of error_of false walk).2
    = ["Notes directory not found: " +:+ notes_dir]
  ∧ (Console.scan_notes verbose notes_dir path_of error_of false walk).1 = [].
Proof.
  intros Hit.
  assert (it ∅ = []) as Hempty.
  { apply Permutation_nil_r. by rewrite Hit, elements_empty. }
  assert (Console.find_public_notes notes_dir path_of error_of false walk
          = ([], [Console.Stdout ("Notes directory not found: " +:+ notes_dir)]))
    as Hfind by done.
  unfold Console.output_public_paths, Console.output_public_assets,
    Console.collect_public_assets, Console.scan_notes.
  repeat first
    [ rewrite Hfind | rewrite log_run | rewrite bind_ret | rewrite bind_pair
    | rewrite Hempty | progress cbn [fst snd Console.for_each merge_sort] ].
  unfold Console.ret, merge_sort. cbn [fst snd Console.for_each merge_sort_aux merge_stack].
  unfold Console.ret. cbn [fst snd].
  rewrite !stdout_of_app, !stdout_of_Stderr. by repeat split.
Qed.

Lemma missing_notes_directory_witness :
  Console.stdout_of
    (Console.output_public_assets false "../Notes" name (λ _, "denied") elements false
       [MdFile "a.md" (Some (with_frontmatter ["public: true"] ["[a](assets/a.png)"]))]).2
  = ["Notes directory not found: ../Notes"].
Proof.
  apply (missing_notes_directory false "../Notes" name name (λ _, "denied") elements
           [MdFile "a.md" (Some (with_frontmatter ["public: true"] ["[a](assets/a.png)"]))]).
  intros X; reflexivity.
Defined.
